(** * The FlareSolverr client: command construction, dispatch and error
      classification (package [flaresolverr], file [client.go]).

    The development has four parts.  Part I models the pieces of the Go
    standard library and of [github.com/google/uuid] that [client.go] calls.
    Part II is the shallow embedding of [client.go] itself, function by
    function, under the names of the source, followed by the vocabulary of
    the properties.  Part III states and proves the properties.  Part IV
    runs the cases of the package's tests and instantiates the theorems.

    Conventions.  A Go [string] is a sequence of bytes and is modelled by
    [String.string] (a sequence of 8-bit [ascii]).  [int64], [int] (taken as 64
    bits wide, as on amd64 and arm64) and [time.Duration] are [Z] with the
    two's-complement wrap-around written out.  A function returning a
    pointer to a [Response] and an [error] returns a pair of options, [None]
    standing for [nil].  A nullable pointer is an [option] of an address. *)

From Stdlib Require Import ZArith NArith List Bool String Ascii Lia.
From Stdlib Require Import Strings.Byte.
From Stdlib Require Import Floats.SpecFloat.
Import ListNotations.

Set Warnings "-register-all".

Local Open Scope string_scope.
Local Open Scope list_scope.
Local Open Scope Z_scope.

(* ================================================================== *)
(** * Part I.  Models of the libraries the client calls               *)
(* ================================================================== *)

(** ** Machine integers *)

Module GoInt.

(** Two's-complement reduction of an integer to [bits] bits. *)
Definition wrap (bits : Z) (z : Z) : Z :=
  (z + 2 ^ (bits - 1)) mod 2 ^ bits - 2 ^ (bits - 1).

Definition MinInt64 : Z := - 2 ^ 63.
Definition MaxInt64 : Z := 2 ^ 63 - 1.

Definition is_int64 (z : Z) : Prop := MinInt64 <= z <= MaxInt64.

(** [int64(x)] and the arithmetic of [int64] values. *)
Definition int64 (z : Z) : Z := wrap 64 z.
Definition add64 (x y : Z) : Z := int64 (x + y).

(** Go's [/] on integers truncates toward zero; the only overflowing
    quotient, [MinInt64 / -1], wraps. *)
Definition div64 (x y : Z) : Z := int64 (Z.quot x y).

(** [int(x)] for an [int64] [x], with [int] 64 bits wide. *)
Definition int (z : Z) : Z := wrap 64 z.

End GoInt.

(** ** Package [unicode/utf8] *)

Module utf8.

Definition RuneError : Z := 65533.
Definition RuneSelf : Z := 128.
Definition MaxRune : Z := 1114111.

Definition surrogateMin : Z := 55296.
Definition surrogateMax : Z := 57343.

Definition tx : Z := 128.
Definition t2 : Z := 192.
Definition t3 : Z := 224.
Definition t4 : Z := 240.

Definition maskx : Z := 63.
Definition mask2 : Z := 31.
Definition mask3 : Z := 15.
Definition mask4 : Z := 7.

Definition rune1Max : Z := 127.
Definition rune2Max : Z := 2047.
Definition rune3Max : Z := 65535.

Definition locb : Z := 128.
Definition hicb : Z := 191.

(** The codes of the table [first]: the size of the sequence a byte
    starts in the low three bits, the index of the range its second byte
    must lie in in the high four. *)
Definition xx : Z := 241.
Definition as_ : Z := 240.
Definition s1 : Z := 2.
Definition s2 : Z := 19.
Definition s3 : Z := 3.
Definition s4 : Z := 35.
Definition s5 : Z := 52.
Definition s6 : Z := 4.
Definition s7 : Z := 68.

(** [first[b]] *)
Definition first (b : Z) : Z :=
  if b <? 128 then as_
  else if b <? 194 then xx
  else if b <? 224 then s1
  else if b =? 224 then s2
  else if b <? 237 then s3
  else if b =? 237 then s4
  else if b <? 240 then s3
  else if b =? 240 then s5
  else if b <? 244 then s6
  else if b =? 244 then s7
  else xx.

(** [acceptRanges[i]] *)
Definition acceptRanges (i : Z) : Z * Z :=
  if i =? 0 then (locb, hicb)
  else if i =? 1 then (160, hicb)
  else if i =? 2 then (locb, 159)
  else if i =? 3 then (144, hicb)
  else if i =? 4 then (locb, 143)
  else (0, 0).

(** [s[i]] as a number, for an index in range. *)
Definition byteAt (s : string) (i : nat) : Z :=
  match String.get i s with
  | Some c => Z.of_N (N_of_ascii c)
  | None => 0
  end.

(** [s[n:]] *)
Fixpoint from (n : nat) (s : string) : string :=
  match n, s with
  | O, _ => s
  | S n', String _ s' => from n' s'
  | S _, EmptyString => EmptyString
  end.

(** [s[:n]] *)
Fixpoint upto (n : nat) (s : string) : string :=
  match n, s with
  | S n', String c s' => String c (upto n' s')
  | _, _ => EmptyString
  end.

(** [DecodeRuneInString(s)]: the first rune of [s] and its width in
    bytes; [(RuneError, 1)] for a byte that starts no valid sequence.  The
    same decoding drives [for range] over a string. *)
Definition DecodeRuneInString (s : string) : Z * nat :=
  let n := Z.of_nat (String.length s) in
  if n <? 1 then (RuneError, O) else
  let s0 := byteAt s 0 in
  let x := first s0 in
  if as_ <=? x then
    (* the mask is all ones for [xx] and zero for [as] *)
    (if Z.odd x then RuneError else s0, 1%nat)
  else
  let sz := Z.land x 7 in
  let accept := acceptRanges (Z.shiftr x 4) in
  if n <? sz then (RuneError, 1%nat) else
  let b1 := byteAt s 1 in
  if (b1 <? fst accept) || (snd accept <? b1) then (RuneError, 1%nat) else
  if sz <=? 2 then
    (Z.lor (Z.shiftl (Z.land s0 mask2) 6) (Z.land b1 maskx), 2%nat)
  else
  let b2 := byteAt s 2 in
  if (b2 <? locb) || (hicb <? b2) then (RuneError, 1%nat) else
  if sz <=? 3 then
    (Z.lor (Z.lor (Z.shiftl (Z.land s0 mask3) 12) (Z.shiftl (Z.land b1 maskx) 6))
       (Z.land b2 maskx), 3%nat)
  else
  let b3 := byteAt s 3 in
  if (b3 <? locb) || (hicb <? b3) then (RuneError, 1%nat) else
  (Z.lor (Z.lor (Z.lor (Z.shiftl (Z.land s0 mask4) 18)
                       (Z.shiftl (Z.land b1 maskx) 12))
                (Z.shiftl (Z.land b2 maskx) 6))
     (Z.land b3 maskx), 4%nat).

(** [byte(x)] *)
Definition byte_of (x : Z) : ascii := ascii_of_N (Z.to_N (x mod 256)).

Definition bytes3 (r : Z) : string :=
  String (byte_of (Z.lor t3 (Z.shiftr r 12 mod 256)))
    (String (byte_of (Z.lor tx (Z.land (Z.shiftr r 6 mod 256) maskx)))
       (String (byte_of (Z.lor tx (Z.land (r mod 256) maskx))) EmptyString)).

(** [AppendRune(nil, r)]: the UTF-8 encoding of [r], that of
    [RuneError] for a surrogate or a value out of range. *)
Definition EncodeRune (r : Z) : string :=
  let i := r mod 4294967296 in
  if i <=? rune1Max then String (byte_of r) EmptyString
  else if i <=? rune2Max then
    String (byte_of (Z.lor t2 (Z.shiftr r 6 mod 256)))
      (String (byte_of (Z.lor tx (Z.land (r mod 256) maskx))) EmptyString)
  else if (MaxRune <? i) || ((surrogateMin <=? i) && (i <=? surrogateMax)) then
    bytes3 RuneError
  else if i <=? rune3Max then bytes3 r
  else
    String (byte_of (Z.lor t4 (Z.shiftr r 18 mod 256)))
      (String (byte_of (Z.lor tx (Z.land (Z.shiftr r 12 mod 256) maskx)))
         (String (byte_of (Z.lor tx (Z.land (Z.shiftr r 6 mod 256) maskx)))
            (String (byte_of (Z.lor tx (Z.land (r mod 256) maskx))) EmptyString))).

(** [ValidString(s)]: no byte of [s] decodes to [(RuneError, 1)].
    [fuel] bounds the number of runes. *)
Fixpoint validFrom (fuel : nat) (s : string) : bool :=
  match fuel, s with
  | _, EmptyString => true
  | O, String _ _ => true
  | S fuel', String _ _ =>
      let (r, size) := DecodeRuneInString s in
      if (r =? RuneError) && Nat.eqb size 1 then false
      else validFrom fuel' (from size s)
  end.

Definition ValidString (s : string) : bool := validFrom (String.length s) s.

End utf8.

(** ** Package [unicode] *)

Module unicode.

Definition MaxASCII : Z := 127.

Section CaseTables.

(** [To(LowerCase, r)], the lookup of a rune above ASCII in the case
    tables of the Unicode database.  The tables are not reproduced: the
    lookup is a parameter. *)
Variable To_LowerCase : Z -> Z.

(** [unicode.ToLower(r)] *)
Definition ToLower (r : Z) : Z :=
  if r <=? MaxASCII then
    if (65 <=? r) && (r <=? 90) then r + (97 - 65) else r
  else To_LowerCase r.

End CaseTables.

End unicode.

(** ** Package [strings] *)

Module strings.

(** [utf8.RuneSelf]: bytes below it are single-byte (ASCII) runes. *)
Definition RuneSelf : N := 128.

Definition byte_lt_RuneSelf (c : ascii) : bool := (N_of_ascii c <? RuneSelf)%N.

(** ['A' <= c && c <= 'Z'] *)
Definition isUpperByte (c : ascii) : bool :=
  ((N_of_ascii "A" <=? N_of_ascii c) && (N_of_ascii c <=? N_of_ascii "Z"))%N.

(** [c += 'a' - 'A'] on upper-case bytes, identity on the others. *)
Definition lowerByte (c : ascii) : ascii :=
  if isUpperByte c
  then ascii_of_N (N_of_ascii c + (N_of_ascii "a" - N_of_ascii "A"))
  else c.

(** The first loop of [ToLower]: both flags it computes. *)
Fixpoint isASCII (s : string) : bool :=
  match s with
  | EmptyString => true
  | String c s' => byte_lt_RuneSelf c && isASCII s'
  end.

Fixpoint hasUpper (s : string) : bool :=
  match s with
  | EmptyString => false
  | String c s' => isUpperByte c || hasUpper s'
  end.

(** The second loop of [ToLower] (the builder): every byte of an ASCII
    string is copied, upper-case bytes after being lowered. *)
Fixpoint lowerASCII (s : string) : string :=
  match s with
  | EmptyString => EmptyString
  | String c s' => String (lowerByte c) (lowerASCII s')
  end.

Section ToLower.

(** [strings.Map(unicode.ToLower, s)], the path [ToLower] takes when [s]
    holds a byte that is not ASCII.  It reads the Unicode case tables, which
    are not reproduced here: the function is a parameter, and every result
    below holds whatever it computes. *)
Variable MapUnicodeToLower : string -> string.

Definition ToLower (s : string) : string :=
  if isASCII s then
    if negb (hasUpper s) then s else lowerASCII s
  else MapUnicodeToLower s.

End ToLower.

(** [HasPrefix(s, prefix)] *)
Fixpoint HasPrefix (s prefix : string) {struct prefix} : bool :=
  match prefix, s with
  | EmptyString, _ => true
  | String _ _, EmptyString => false
  | String p prefix', String c s' => Ascii.eqb c p && HasPrefix s' prefix'
  end.

(** [Index(s, substr)]: the index of the first instance of [substr] in [s],
    or [-1].  [from] is the index of the first byte of [s] in the string the
    search started from. *)
Fixpoint indexFrom (from : Z) (s substr : string) : Z :=
  if HasPrefix s substr then from
  else match s with
       | EmptyString => -1
       | String _ s' => indexFrom (from + 1) s' substr
       end.

Definition Index (s substr : string) : Z := indexFrom 0 s substr.

(** [Contains(s, substr)] is [Index(s, substr) >= 0]. *)
Definition Contains (s substr : string) : bool := 0 <=? Index s substr.

(** [Map(mapping, s)]: the runes of [s] in order, invalid bytes read as
    [RuneError], each replaced by its image under [mapping], written in
    UTF-8, or dropped when the image is negative.  [fuel] bounds the number
    of runes. *)
Fixpoint mapRunes (fuel : nat) (mapping : Z -> Z) (s : string) : string :=
  match fuel, s with
  | _, EmptyString => EmptyString
  | O, String _ _ => EmptyString
  | S fuel', String _ _ =>
      let (c, width) := utf8.DecodeRuneInString s in
      let r := mapping c in
      String.append
        (if 0 <=? r then
           if r <? utf8.RuneSelf then String (utf8.byte_of r) EmptyString
           else utf8.EncodeRune r
         else EmptyString)
        (mapRunes fuel' mapping (utf8.from width s))
  end.

Definition Map (mapping : Z -> Z) (s : string) : string :=
  mapRunes (String.length s) mapping s.

(** What [ToLower] does on a string that is not ASCII:
    [Map(unicode.ToLower, s)], given the lookup in the case tables. *)
Definition MapToLower (To_LowerCase : Z -> Z) : string -> string :=
  Map (unicode.ToLower To_LowerCase).

End strings.

(** ** Packages [errors] and [fmt]: error values *)

Module errors.

(** The error values that can reach a caller of the client.  The two
    package-level sentinels of [client.go] are created once by [errors.New]
    and compared by identity, so each is a constructor of its own.
    [wrapError] is the value [fmt.Errorf] builds for a format with one [%w]:
    the formatted message and the wrapped error.  [foreign] is an error
    produced by another package (encoding/json, net/http, net/url, context). *)
Inductive error : Type :=
| ErrRequestTimeout : error
| ErrUnexpectedError : error
| foreign (msg : string) : error
| wrapError (msg : string) (err : error) : error.

(** The [Error()] method. *)
Definition Error (e : error) : string :=
  match e with
  | ErrRequestTimeout => "maximum timeout reached"
  | ErrUnexpectedError => "unexpected error from FlareSolverr server"
  | foreign msg => msg
  | wrapError msg _ => msg
  end.

(** [errors.Unwrap] *)
Definition Unwrap (e : error) : option error :=
  match e with
  | wrapError _ err => Some err
  | _ => None
  end.

(** [err == target] on error values.  The sentinels are equal to themselves
    only; on the other values, where Go compares pointers, the comparison
    is by structure (the targets used below are the sentinels). *)
Fixpoint error_eqb (a b : error) : bool :=
  match a, b with
  | ErrRequestTimeout, ErrRequestTimeout => true
  | ErrUnexpectedError, ErrUnexpectedError => true
  | foreign m, foreign n => String.eqb m n
  | wrapError m x, wrapError n y => String.eqb m n && error_eqb x y
  | _, _ => false
  end.

(** [errors.Is(err, target)]: [err] or an error it wraps is [target]. *)
Fixpoint Is (err target : error) : bool :=
  error_eqb err target ||
  match err with
  | wrapError _ inner => Is inner target
  | _ => false
  end.

End errors.

Module fmt.

Import errors.

(** [fmt.Errorf(prefix + "%w", err)] *)
Definition Errorf_w (prefix : string) (err : error) : error :=
  wrapError (prefix ++ Error err)%string err.

(** [fmt.Errorf("%w: %s", err, s)] *)
Definition Errorf_w_s (err : error) (s : string) : error :=
  wrapError (Error err ++ ": " ++ s)%string err.

End fmt.

(** ** Package [encoding/hex] *)

Module hex.

Definition hextable : string := "0123456789abcdef".

(** [hextable[i]].  The encoder only indexes with a nibble, so the index
    is always in range. *)
Definition hexdigit (i : N) : ascii :=
  match String.get (N.to_nat i) hextable with
  | Some c => c
  | None => Ascii.zero
  end.

(** [dst[i] = x].  Every buffer below is long enough for the indices
    written (Go panics on the others). *)
Fixpoint store (i : nat) (x : ascii) (dst : list ascii) : list ascii :=
  match dst, i with
  | [], _ => []
  | _ :: dst', O => x :: dst'
  | y :: dst', S i' => y :: store i' x dst'
  end.

(** The loop of [Encode]: [dst[j]] and [dst[j+1]] receive the two
    digits of each byte [v] of [src], and [j] advances by two. *)
Fixpoint encodeFrom (j : nat) (dst : list ascii) (src : list byte) : list ascii :=
  match src with
  | [] => dst
  | v :: src' =>
      let dst := store j (hexdigit (N.shiftr (Byte.to_N v) 4)) dst in
      let dst := store (j + 1) (hexdigit (N.land (Byte.to_N v) 15)) dst in
      encodeFrom (j + 2) dst src'
  end.

(** [hex.Encode(dst, src)], as the contents of [dst] afterwards. *)
Definition Encode (dst : list ascii) (src : list byte) : list ascii :=
  encodeFrom 0 dst src.

End hex.

(** ** Package [github.com/google/uuid] *)

Module uuid.

(** [type UUID [16]byte].  The length is not part of the Rocq type: the
    values of the Go type are the lists that satisfy [wf]. *)
Definition UUID : Type := list byte.

Definition wf (u : UUID) : Prop := List.length u = 16%nat.

(** [var Nil UUID]: the zero value, sixteen zero bytes. *)
Definition Nil : UUID := repeat x00 16.

(** [a == b] on arrays of bytes. *)
Fixpoint eqb (a b : UUID) : bool :=
  match a, b with
  | [], [] => true
  | x :: a', y :: b' => Byte.eqb x y && eqb a' b'
  | _, _ => false
  end.

(** [u[lo:hi]] *)
Definition slice {A : Type} (lo hi : nat) (l : list A) : list A :=
  firstn (hi - lo) (skipn lo l).

(** A call [f(dst[lo:hi])] that writes to its argument: the slice shares
    the array of [dst], so the bytes [lo..hi) of [dst] are what [f] leaves. *)
Definition through {A : Type} (lo hi : nat) (f : list A -> list A)
  (dst : list A) : list A :=
  firstn lo dst ++ f (slice lo hi dst) ++ skipn hi dst.

(** [encodeHex(dst, uuid)] *)
Definition encodeHex (dst : list ascii) (u : UUID) : list ascii :=
  let dst := hex.Encode dst (slice 0 4 u) in
  let dst := hex.store 8 "-"%char dst in
  let dst := through 9 13 (fun d => hex.Encode d (slice 4 6 u)) dst in
  let dst := hex.store 13 "-"%char dst in
  let dst := through 14 18 (fun d => hex.Encode d (slice 6 8 u)) dst in
  let dst := hex.store 18 "-"%char dst in
  let dst := through 19 23 (fun d => hex.Encode d (slice 8 10 u)) dst in
  let dst := hex.store 23 "-"%char dst in
  through 24 36 (fun d => hex.Encode d (slice 10 16 u)) dst.

(** [func (uuid UUID) String() string]: a zeroed buffer of 36 bytes,
    filled by [encodeHex]. *)
Definition String (u : UUID) : string :=
  let buf := repeat Ascii.zero 36 in
  string_of_list_ascii (encodeHex buf u).

End uuid.

(** ** Package [time] *)

Module time.

(** [type Duration int64], a count of nanoseconds. *)
Definition Duration : Type := Z.

Definition Nanosecond : Duration := 1.
Definition Microsecond : Duration := 1000 * Nanosecond.
Definition Millisecond : Duration := 1000 * Microsecond.
Definition Second : Duration := 1000 * Millisecond.

(** [func (d Duration) Milliseconds() int64 { return int64(d) / 1e6 }] *)
Definition Milliseconds (d : Duration) : Z := GoInt.div64 d 1000000.

(** [d1 + d2] on durations: the sum of two [int64]. *)
Definition add (d1 d2 : Duration) : Duration := GoInt.add64 d1 d2.

End time.

(** ** Package [context] *)

Module context.

(** A context (never nil), as far as its deadline goes: [Deadline()] is
    the instant (nanoseconds on the clock of [time.Now]) at which it
    expires, if it has one. *)
Record Context : Type := mkContext { Deadline : option Z }.

Definition Background : Context := mkContext None.

(** [WithDeadline(parent, d)]: when the parent already expires before
    [d] the child is just a cancellable copy of the parent; otherwise the
    child expires at [d]. *)
Definition WithDeadline (parent : Context) (d : Z) : Context :=
  match Deadline parent with
  | Some cur => if cur <? d then parent else mkContext (Some d)
  | None => mkContext (Some d)
  end.

(** [WithTimeout(parent, timeout)] is
    [WithDeadline(parent, time.Now().Add(timeout))]; [now] is the reading of
    the clock. *)
Definition WithTimeout (now : Z) (parent : Context) (timeout : time.Duration)
  : Context :=
  WithDeadline parent (now + timeout).

End context.

(** ** Package [encoding/json] *)

Module json.

Import errors.

(** A JSON document.  An object keeps its members in the order in which
    the encoder emits them. *)
Inductive value : Type :=
| Null : value
| Bool (b : bool) : value
| Number (n : Z) : value
| Str (s : string) : value
| Array (elems : list value) : value
| Object (members : list (string * value)) : value.

(** The string a Go string becomes in the document: the encoder copies
    the bytes of every valid UTF-8 sequence and writes U+FFFD for each byte
    that belongs to none.  (Its escapes for quotes, control characters and
    HTML are spellings of the same string.)  [fuel] bounds the number of
    steps. *)
Fixpoint coerceFrom (fuel : nat) (s : string) : string :=
  match fuel, s with
  | _, EmptyString => EmptyString
  | O, String _ _ => EmptyString
  | S fuel', String c s' =>
      if Z.of_N (N_of_ascii c) <? utf8.RuneSelf then String c (coerceFrom fuel' s')
      else
        let (r, size) := utf8.DecodeRuneInString s in
        if (r =? utf8.RuneError) && Nat.eqb size 1
        then String.append (utf8.EncodeRune utf8.RuneError)
               (coerceFrom fuel' (utf8.from size s))
        else String.append (utf8.upto size s)
               (coerceFrom fuel' (utf8.from size s))
  end.

Definition coerce (s : string) : string := coerceFrom (String.length s) s.

(** A Go value of type [any], as the encoder sees it: either it has a
    JSON encoding, or the encoder rejects it (a channel, a function, a
    NaN, a failing [MarshalJSON]). *)
Inductive any : Type :=
| encodable (v : value) : any
| unencodable (err : error) : any.

(** The encoding of a slice of [any]: the encodings of the elements, or
    the error of the first element that has none. *)
Fixpoint encodeElems (l : list any) : list value + error :=
  match l with
  | [] => inl []
  | encodable v :: l' =>
      match encodeElems l' with
      | inl vs => inl (v :: vs)
      | inr err => inr err
      end
  | unencodable err :: _ => inr err
  end.

(** A struct field without [omitempty] is always emitted; one with
    [omitempty] is left out when its value is empty (false, 0, a nil
    pointer, and any array, slice, map or string of length zero). *)
Definition member (name : string) (v : value) : list (string * value) :=
  [(name, v)].

Definition member_omitempty (name : string) (isEmptyValue : bool) (v : value)
  : list (string * value) :=
  if isEmptyValue then [] else [(name, v)].

(** The member of an object named [name], if there is one. *)
Fixpoint lookup (name : string) (members : list (string * value))
  : option value :=
  match members with
  | [] => None
  | (k, v) :: rest => if String.eqb k name then Some v else lookup name rest
  end.

Definition get (name : string) (doc : value) : option value :=
  match doc with
  | Object members => lookup name members
  | _ => None
  end.

End json.

(** ** Package [net/http] *)

Module http.

Import errors.

Definition MethodPost : string := "POST".
Definition StatusOK : Z := 200.

(** A [*http.Client] that is not nil: the address of the client. *)
Definition ClientRef : Type := N.

(** [http.DefaultClient], the package-level client every program shares;
    only its identity matters. *)
Definition DefaultClient : ClientRef := 0%N.

(** An outgoing request: method, target, header, body and the context
    that bounds the exchange.  The body is the JSON document the encoder
    wrote to the buffer. *)
Record Request : Type := mkRequest {
  Method : string;
  URL : string;
  Header : list (string * string);
  Payload : json.value;
  Context : context.Context
}.

(** What the client reads of a reply: status code and body. *)
Record Response : Type := mkResponse {
  StatusCode : Z;
  Body : string
}.

(** [req.Header.Set(key, value)]: the entries of [key] are replaced by
    the single [value]. *)
Definition Header_Set (req : Request) (key val : string) : Request :=
  mkRequest (Method req) (URL req)
    ((key, val) :: filter (fun kv => negb (String.eqb (fst kv) key)) (Header req))
    (Payload req) (Context req).

Section NewRequest.

(** [url.Parse] as [NewRequestWithContext] uses it: the error it
    reports for a target it cannot parse, if any. *)
Variable url_Parse_error : string -> option error.

(** [http.NewRequestWithContext(ctx, method, url, body)] for a valid
    method and a context that is not nil. *)
Definition NewRequestWithContext (c : context.Context) (method url : string)
  (body : json.value) : Request + error :=
  match url_Parse_error url with
  | Some err => inr err
  | None => inl (mkRequest method url [] body c)
  end.

End NewRequest.

End http.

(* ================================================================== *)
(** * Part II.  The client ([client.go])                               *)
(* ================================================================== *)

(** ** Outcomes *)

(** A call returns or panics, and hands requests to the HTTP client on
    the way. *)
Inductive outcome (A : Type) : Type :=
| returns (a : A)
| panics.

Arguments returns {A} a.
Arguments panics {A}.

Record effect (A : Type) : Type := mkEffect {
  ret : outcome A;
  sent : list http.Request
}.

Arguments mkEffect {A} ret sent.
Arguments ret {A} e.
Arguments sent {A} e.

Section Flaresolverr.

Import errors.

(** ** The world outside the client *)

(** [strings.Map(unicode.ToLower, s)] on strings that are not ASCII. *)
Variable MapUnicodeToLower : string -> string.

(** The reading of the clock when [context.WithTimeout] is called. *)
Variable now : Z.

(** The error [url.Parse] reports for a base URL, if any. *)
Variable url_Parse_error : string -> option error.

(** The method [Do] of the [http.Client] at an address, for a client
    whose [Do] returns: the reply to a request, or the error of the
    exchange (a transport failure, the context expiring or being
    cancelled). *)
Variable http_Do : http.ClientRef -> http.Request -> http.Response + error.

(** ** Data *)

(** Modelled from the spec: the type [command] and its five constants are
    declared in a file of the package that is not among the sources; the
    spec gives the five discriminants and their strings on the wire. *)
Inductive command : Type :=
| CommandSessionscreate
| CommandSessionslist
| CommandSessionsdestroy
| CommandRequestget
| CommandRequestpost.

(** Modelled from the spec: the JSON encoding of a [command], the string
    discriminant of section 6. *)
Definition command_wire (c : command) : string :=
  match c with
  | CommandSessionscreate => "sessions.create"
  | CommandSessionslist => "sessions.list"
  | CommandSessionsdestroy => "sessions.destroy"
  | CommandRequestget => "request.get"
  | CommandRequestpost => "request.post"
  end.

Record client : Type := mkClient {
  baseURL : string;
  httpClient : option http.ClientRef;
  timeout : time.Duration
}.

(** The anonymous struct [Headers] of [ResponseSolution]. *)
Record SolutionHeaders : Type := mkSolutionHeaders {
  Headers_Status : string;
  Headers_Date : string;
  Headers_ContentType : string;
  Headers_Expires : string;
  Headers_CacheControl : string;
  Headers_Pragma : string;
  Headers_XFrameOptions : string;
  Headers_XContentTypeOptions : string;
  Headers_CfCacheStatus : string;
  Headers_ExpectCt : string;
  Headers_ReportTo : string;
  Headers_Nel : string;
  Headers_Server : string;
  Headers_CfRay : string;
  Headers_ContentEncoding : string;
  Headers_AltSvc : string
}.

(** The anonymous struct of the elements of [Cookies]. *)
Record SolutionCookie : Type := mkSolutionCookie {
  Cookie_Name : string;
  Cookie_Value : string;
  Cookie_Domain : string;
  Cookie_Path : string;
  Cookie_Expires : spec_float;
  Cookie_Size : Z;
  Cookie_HTTPOnly : bool;
  Cookie_Secure : bool;
  Cookie_Session : bool;
  Cookie_SameSite : string
}.

Record ResponseSolution : Type := mkResponseSolution {
  Solution_URL : string;
  Solution_Status : Z;
  Solution_Headers : SolutionHeaders;
  Solution_Response : string;
  Solution_Cookies : list SolutionCookie;
  Solution_UserAgent : string
}.

Record Response : Type := mkResponse {
  Status : string;
  Message : string;
  StartTimestamp : Z;
  EndTimestamp : Z;
  Version : string;
  Response_Session : string;
  Sessions : list uuid.UUID;
  Solution : option ResponseSolution
}.

Record flaresolverrCommand : Type := mkCommand {
  Cmd : command;
  URL : string;
  Session : string;
  MaxTimeout : Z;
  Cookies : list json.any;
  ReturnOnlyCookies : bool;
  Proxy : string;
  PostData : string
}.

(** [cmd.MaxTimeout = v] and [cmd.Proxy = v] *)
Definition set_MaxTimeout (cmd : flaresolverrCommand) (v : Z) : flaresolverrCommand :=
  mkCommand (Cmd cmd) (URL cmd) (Session cmd) v (Cookies cmd)
    (ReturnOnlyCookies cmd) (Proxy cmd) (PostData cmd).

Definition set_Proxy (cmd : flaresolverrCommand) (v : string) : flaresolverrCommand :=
  mkCommand (Cmd cmd) (URL cmd) (Session cmd) (MaxTimeout cmd) (Cookies cmd)
    (ReturnOnlyCookies cmd) v (PostData cmd).

(** [json.NewDecoder(resp.Body).Decode(&response)]: the [Response] read
    from the body of a reply, or the error of the decoder. *)
Variable json_Decode : string -> Response + error.

(** [json.NewEncoder(payload).Encode(cmd)], read off the struct tags of
    [flaresolverrCommand]: the members in the order of the fields, those
    tagged [omitempty] left out when empty, every string as the encoder
    writes it ([json.coerce]). *)
Definition json_Encode (cmd : flaresolverrCommand) : json.value + error :=
  match json.encodeElems (Cookies cmd) with
  | inr err => inr err
  | inl cookies =>
      inl (json.Object
        (json.member "cmd" (json.Str (json.coerce (command_wire (Cmd cmd))))
         ++ json.member "url" (json.Str (json.coerce (URL cmd)))
         ++ json.member_omitempty "session"
              (String.eqb (Session cmd) "")
              (json.Str (json.coerce (Session cmd)))
         ++ json.member "maxTimeout" (json.Number (MaxTimeout cmd))
         ++ json.member_omitempty "cookies"
              (Nat.eqb (List.length (Cookies cmd)) 0) (json.Array cookies)
         ++ json.member_omitempty "returnOnlyCookies"
              (negb (ReturnOnlyCookies cmd)) (json.Bool (ReturnOnlyCookies cmd))
         ++ json.member_omitempty "proxy"
              (String.eqb (Proxy cmd) "") (json.Str (json.coerce (Proxy cmd)))
         ++ json.member_omitempty "postData"
              (String.eqb (PostData cmd) "")
              (json.Str (json.coerce (PostData cmd)))))
  end.

(** ** Functions *)

(** [New] creates a client; the interface value it returns holds the
    [client] built here. *)
Definition New (baseURL : string) (timeout : time.Duration)
  (httpClient : option http.ClientRef) : client :=
  let httpClient :=
    match httpClient with
    | None => Some http.DefaultClient
    | Some _ => httpClient
    end in
  let timeout :=
    if timeout =? 0 then time.Millisecond * 60000 else timeout in
  mkClient baseURL httpClient timeout.

(** The [switch] of [handleError] has no tag: its first case is taken
    when the lower-cased message contains the phrase, its default
    otherwise. *)
Definition handleError (resp : Response) : error :=
  let message := strings.ToLower MapUnicodeToLower (Message resp) in
  if strings.Contains message "maximum timeout reached"
  then ErrRequestTimeout
  else fmt.Errorf_w_s ErrUnexpectedError (Message resp).

Definition handleSession (session : uuid.UUID) : string :=
  if uuid.eqb session uuid.Nil then "" else uuid.String session.

(** [do]: the command as the call leaves it (the caller passes a
    pointer), the values returned and the requests handed to the HTTP
    client.  The deferred [cancel()] and [resp.Body.Close()] change none of
    these.  Calling [Do] on a nil HTTP client panics. *)
Definition do (c : client) (ctx : context.Context) (cmd : flaresolverrCommand)
  : flaresolverrCommand * effect (option Response * option error) :=
  let cmd := set_MaxTimeout cmd (GoInt.int (time.Milliseconds (timeout c))) in
  match json_Encode cmd with
  | inr err =>
      (cmd, mkEffect (returns (None, Some (fmt.Errorf_w "invalid command: " err))) [])
  | inl payload =>
      let ctx := context.WithTimeout now ctx
                   (time.add (timeout c) (10 * time.Second)) in
      match http.NewRequestWithContext url_Parse_error ctx http.MethodPost
              (baseURL c) payload with
      | inr err =>
          (cmd, mkEffect (returns (None, Some (fmt.Errorf_w "cannot make request: " err))) [])
      | inl req =>
          let req := http.Header_Set req "Content-Type" "application/json" in
          match httpClient c with
          | None => (cmd, mkEffect panics [])
          | Some cl =>
              match http_Do cl req with
              | inr err =>
                  (cmd, mkEffect
                     (returns (None, Some (fmt.Errorf_w
                        "error making request to flaresolverr: " err))) [req])
              | inl resp =>
                  match json_Decode (http.Body resp) with
                  | inr err =>
                      (cmd, mkEffect
                         (returns (None, Some (fmt.Errorf_w
                            "cannot read flaresolverr response: " err))) [req])
                  | inl response =>
                      if negb (http.StatusCode resp =? http.StatusOK)
                      then (cmd, mkEffect
                              (returns (None, Some (handleError response))) [req])
                      else (cmd, mkEffect (returns (Some response, None)) [req])
                  end
              end
          end
      end
  end.

(** [if len(proxy) > 0 { cmd.Proxy = proxy[0] }] *)
Definition apply_proxy (cmd : flaresolverrCommand) (proxy : list string)
  : flaresolverrCommand :=
  if 0 <? Z.of_nat (List.length proxy)
  then set_Proxy cmd (nth 0 proxy "")
  else cmd.

Definition CreateSession (c : client) (ctx : context.Context)
  (session : uuid.UUID) (proxy : list string)
  : effect (option Response * option error) :=
  let cmd := mkCommand CommandSessionscreate "" (handleSession session)
               0 [] false "" "" in
  let cmd := apply_proxy cmd proxy in
  snd (do c ctx cmd).

Definition ListSessions (c : client) (ctx : context.Context)
  : effect (option Response * option error) :=
  let cmd := mkCommand CommandSessionslist "" "" 0 [] false "" "" in
  snd (do c ctx cmd).

(** [_, err := c.do(ctx, cmd); return err] *)
Definition error_only (r : effect (option Response * option error))
  : effect (option error) :=
  match ret r with
  | returns (_, err) => mkEffect (returns err) (sent r)
  | panics => mkEffect panics (sent r)
  end.

Definition DestroySession (c : client) (ctx : context.Context)
  (session : uuid.UUID) : effect (option error) :=
  let cmd := mkCommand CommandSessionsdestroy "" (handleSession session)
               0 [] false "" "" in
  error_only (snd (do c ctx cmd)).

Definition Get (c : client) (ctx : context.Context) (u : string)
  (session : uuid.UUID) (proxy : list string)
  : effect (option Response * option error) :=
  let cmd := mkCommand CommandRequestget u (handleSession session)
               0 [] false "" "" in
  let cmd := apply_proxy cmd proxy in
  snd (do c ctx cmd).

Definition Post (c : client) (ctx : context.Context) (u : string)
  (session : uuid.UUID) (data : string) (proxy : list string)
  : effect (option Response * option error) :=
  let cmd := mkCommand CommandRequestpost u (handleSession session)
               0 [] false "" data in
  let cmd := apply_proxy cmd proxy in
  snd (do c ctx cmd).

(** ** Vocabulary of the properties *)

(** The message the classifier looks for. *)
Definition timeout_message : string := "maximum timeout reached".

(** [s] contains [substr]. *)
Definition contains (s substr : string) : Prop :=
  exists pre post, s = (pre ++ substr ++ post)%string.

(** [s] contains [substr] up to the case of the ASCII letters of [s]. *)
Definition containsFold (s substr : string) : Prop :=
  exists pre mid post,
    s = (pre ++ mid ++ post)%string /\ strings.lowerASCII mid = substr.

(** The letters of the alphabet, in their two cases. *)
Definition upper_letters : string := "ABCDEFGHIJKLMNOPQRSTUVWXYZ".
Definition lower_letters : string := "abcdefghijklmnopqrstuvwxyz".

(** [c] is a capital letter and [d] the same letter in lower case. *)
Fixpoint paired (uppers lowers : string) (c d : ascii) : bool :=
  match uppers, lowers with
  | String u uppers', String l lowers' =>
      (Ascii.eqb c u && Ascii.eqb d l) || paired uppers' lowers' c d
  | _, _ => false
  end.

(** Two bytes are the same up to case: equal, or one letter in its two
    cases. *)
Definition same_letter (c d : ascii) : bool :=
  Ascii.eqb c d
  || paired upper_letters lower_letters c d
  || paired upper_letters lower_letters d c.

(** Two strings are the same up to the case of their letters. *)
Fixpoint equal_fold (s t : string) : bool :=
  match s, t with
  | EmptyString, EmptyString => true
  | String c s', String d t' => same_letter c d && equal_fold s' t'
  | _, _ => false
  end.

(** [s] contains [phrase] written in some mixture of cases. *)
Definition contains_ignoring_case (s phrase : string) : Prop :=
  exists pre mid post,
    s = (pre ++ mid ++ post)%string /\ equal_fold mid phrase = true.

(** The 256 bytes. *)
Definition all_bytes : list ascii := map ascii_of_nat (seq 0 256).

(** Every request sent during a call satisfies [P]. *)
Definition every_request {A : Type} (e : effect A) (P : http.Request -> Prop)
  : Prop :=
  forall req, In req (sent e) -> P req.

(** The canonical textual form of an identifier: 36 bytes, a hyphen at
    each of the offsets 8, 13, 18 and 23, and a lower-case hexadecimal digit
    everywhere else. *)
Definition is_lower_hex (c : ascii) : bool :=
  ((N_of_ascii "0" <=? N_of_ascii c) && (N_of_ascii c <=? N_of_ascii "9")
   || (N_of_ascii "a" <=? N_of_ascii c) && (N_of_ascii c <=? N_of_ascii "f"))%N.

Definition hyphen_offset (i : nat) : bool :=
  Nat.eqb i 8 || Nat.eqb i 13 || Nat.eqb i 18 || Nat.eqb i 23.

Fixpoint layout_from (i : nat) (s : string) : bool :=
  match s with
  | EmptyString => true
  | String c s' =>
      (if hyphen_offset i then Ascii.eqb c "-" else is_lower_hex c)
      && layout_from (S i) s'
  end.

Definition is_canonical (s : string) : bool :=
  Nat.eqb (String.length s) 36 && layout_from 0 s.

(** The identifier a canonical string denotes: the hyphens dropped, each
    pair of digits read as one byte, most significant digit first. *)
Definition digit_value (c : ascii) : option N :=
  if ((N_of_ascii "0" <=? N_of_ascii c) && (N_of_ascii c <=? N_of_ascii "9"))%N
  then Some (N_of_ascii c - N_of_ascii "0")%N
  else if ((N_of_ascii "a" <=? N_of_ascii c) && (N_of_ascii c <=? N_of_ascii "f"))%N
  then Some (N_of_ascii c - N_of_ascii "a" + 10)%N
  else None.

Definition byte_of_digits (h l : ascii) : option byte :=
  match digit_value h, digit_value l with
  | Some a, Some b => Byte.of_N (16 * a + b)
  | _, _ => None
  end.

Fixpoint bytes_of_digits (s : string) : option (list byte) :=
  match s with
  | EmptyString => Some []
  | String "-" s' => bytes_of_digits s'
  | String h (String l s') =>
      match byte_of_digits h l, bytes_of_digits s' with
      | Some b, Some bs => Some (b :: bs)
      | _, _ => None
      end
  | String _ EmptyString => None
  end.

Definition parseCanonical (s : string) : option uuid.UUID :=
  if is_canonical s then bytes_of_digits s else None.

(** The two digits [hex.Encode] writes for a byte. *)
Definition high_digit (v : byte) : ascii :=
  hex.hexdigit (N.shiftr (Byte.to_N v) 4).

Definition low_digit (v : byte) : ascii :=
  hex.hexdigit (N.land (Byte.to_N v) 15).

(** The value [do] stores in [MaxTimeout]. *)
Definition wire_timeout (c : client) : Z :=
  GoInt.int (time.Milliseconds (timeout c)).

(** The context [do] gives the request. *)
Definition request_context (c : client) (ctx : context.Context) : context.Context :=
  context.WithTimeout now ctx (time.add (timeout c) (10 * time.Second)).

(** A call that sends exactly one request. *)
Definition sends_one {A : Type} (e : effect A) : Prop :=
  exists req, sent e = [req].

(** A client whose base URL parses and that has an HTTP client. *)
Definition usable (c : client) : Prop :=
  url_Parse_error (baseURL c) = None /\ httpClient c <> None.

(** The call [e] is the dispatch of the command [cmd]: what [do] returns
    for it, or that with the [Response] dropped. *)
Inductive dispatches (c : client) (ctx : context.Context) (cmd : flaresolverrCommand)
  : forall A : Type, effect A -> Prop :=
| dispatches_do : dispatches c ctx cmd _ (snd (do c ctx cmd))
| dispatches_error_only : dispatches c ctx cmd _ (error_only (snd (do c ctx cmd))).

(** [Q] holds of every call of each of the five public operations. *)
Definition every_operation (c : client) (ctx : context.Context)
  (Q : forall A : Type, effect A -> Prop) : Prop :=
  (forall session proxy, Q _ (CreateSession c ctx session proxy))
  /\ Q _ (ListSessions c ctx)
  /\ (forall session, Q _ (DestroySession c ctx session))
  /\ (forall u session proxy, Q _ (Get c ctx u session proxy))
  /\ (forall u session data proxy, Q _ (Post c ctx u session data proxy)).

(** The member [maxTimeout] of the body of a request is the number [v]. *)
Definition carries_maxTimeout (v : Z) (req : http.Request) : Prop :=
  json.get "maxTimeout" (http.Payload req) = Some (json.Number v).

(** The body of a request has neither a member [cookies] nor a member
    [returnOnlyCookies]. *)
Definition omits_cookies (req : http.Request) : Prop :=
  json.get "cookies" (http.Payload req) = None
  /\ json.get "returnOnlyCookies" (http.Payload req) = None.

(** The member [name] of the body of a request is [v] ([None]: there is
    no such member). *)
Definition has_member (name : string) (v : option json.value)
  (req : http.Request) : Prop :=
  json.get name (http.Payload req) = v.

(** What a string field tagged [omitempty] puts on the wire: nothing
    when the string is empty, and otherwise the string as the encoder
    writes it. *)
Definition wire_string (s : string) : option json.value :=
  if String.eqb s "" then None else Some (json.Str (json.coerce s)).

(** What an identifier puts on the wire as [session]. *)
Definition session_member (session : uuid.UUID) : option json.value :=
  if uuid.eqb session uuid.Nil then None
  else Some (json.Str (uuid.String session)).

(** The member [maxTimeout] of a request is a number [v] of whole
    milliseconds within a millisecond below the timeout of the client, and
    a request without a caller deadline expires ten seconds or more after
    those [v] milliseconds. *)
Definition truncated_within_deadline (c : client) (ctx : context.Context)
  (req : http.Request) : Prop :=
  exists v : Z,
    has_member "maxTimeout" (Some (json.Number v)) req
    /\ 0 <= v
    /\ v * time.Millisecond <= timeout c
    /\ timeout c < (v + 1) * time.Millisecond
    /\ (context.Deadline ctx = None ->
        exists d : Z,
          context.Deadline (http.Context req) = Some d
          /\ now + v * time.Millisecond + 10 * time.Second <= d).

(** The names of the members of an object, in order. *)
Definition keys (doc : json.value) : list string :=
  match doc with
  | json.Object members => map fst members
  | _ => []
  end.

(** [l] is [l'] with some elements left out. *)
Fixpoint subsequence (l l' : list string) : bool :=
  match l, l' with
  | [], _ => true
  | _ :: _, [] => false
  | x :: xs, y :: ys =>
      if String.eqb x y then subsequence xs ys else subsequence l ys
  end.

(** The JSON names of the fields of [flaresolverrCommand], in the order
    of the struct. *)
Definition field_names : list string :=
  ["cmd"; "url"; "session"; "maxTimeout"; "cookies"; "returnOnlyCookies";
   "proxy"; "postData"]%string.

(** ** Values of the package's tests, and a small world to run them in *)

(** [uuid.MustParse("47d0a203-a007-4a01-b8c1-0cf0156c3cc7")] *)
Definition test_session : uuid.UUID :=
  [x47; xd0; xa2; x03; xa0; x07; x4a; x01; xb8; xc1; x0c; xf0; x15; x6c; x3c; xc7].

(** [&Response{Message: message}] *)
Definition test_Response (message : string) : Response :=
  mkResponse "" message 0 0 "" "" [] None.

(** A lowering of non-ASCII strings that changes nothing (the strings
    of the tests are ASCII, where it is not consulted). *)
Definition test_lower : string -> string := fun s => s.

Definition test_now : Z := 1700000000000000000.

(** Every base URL parses. *)
Definition test_url_Parse_error : string -> option error := fun _ => None.

(** An HTTP client that answers every request with one status and body. *)
Definition test_reply (status : Z) (body : string)
  : http.ClientRef -> http.Request -> http.Response + error :=
  fun _ _ => inl (http.mkResponse status body).

(** A decoder that reads the whole body as the message. *)
Definition test_Decode : string -> Response + error :=
  fun body => inl (test_Response body).

(** A base URL that does not parse, and an HTTP client whose exchanges
    fail. *)
Definition test_bad_url : string -> option error :=
  fun _ => Some (foreign "parse: missing protocol scheme").

Definition test_refuse
  : http.ClientRef -> http.Request -> http.Response + error :=
  fun _ _ => inr (foreign "context deadline exceeded").

Definition test_baseURL : string := "http://127.0.0.1:8191/v1".

(** One row of the case tables of Go: U+0130, LATIN CAPITAL LETTER I
    WITH DOT ABOVE, has the lower case U+0069, the letter i.  The other
    runes above ASCII are left as they are here. *)
Definition row_of_U0130 : Z -> Z := fun r => if r =? 304 then 105 else r.

(** The phrase with U+0130 (two bytes) for each of its first two
    letters i. *)
Definition dotted_message : string :=
  ("max" ++ utf8.EncodeRune 304 ++ "mum t" ++ utf8.EncodeRune 304
   ++ "meout reached")%string.

(** The phrase in mixed case inside a message that is not ASCII. *)
Definition mixed_message : string :=
  ("Erreur (" ++ utf8.EncodeRune 233 ++ "chec): Maximum Timeout REACHED.")%string.

(** A body of valid UTF-8 that is not ASCII. *)
Definition accented_body : string :=
  ("name=caf" ++ utf8.EncodeRune 233)%string.

(** A body that is not valid UTF-8. *)
Definition invalid_body : string :=
  ("foo=" ++ String (ascii_of_nat 255) "")%string.

(** The requests a client with the default timeout sends for
    [ListSessions] and for [DestroySession] of the identifier of the
    tests. *)
Definition test_list_request : http.Request :=
  http.mkRequest "POST" test_baseURL
    [("Content-Type", "application/json")%string]
    (json.Object [("cmd", json.Str "sessions.list");
                  ("url", json.Str "");
                  ("maxTimeout", json.Number 60000)]%string)
    (context.mkContext (Some (test_now + 70000000000))).

Definition test_destroy_request : http.Request :=
  http.mkRequest "POST" test_baseURL
    [("Content-Type", "application/json")%string]
    (json.Object [("cmd", json.Str "sessions.destroy");
                  ("url", json.Str "");
                  ("session", json.Str "47d0a203-a007-4a01-b8c1-0cf0156c3cc7");
                  ("maxTimeout", json.Number 60000)]%string)
    (context.mkContext (Some (test_now + 70000000000))).

(* ================================================================== *)
(** * Part III.  Properties                                            *)
(* ================================================================== *)

(** ** Facts about [strings] *)

Lemma HasPrefix_spec (s prefix : string) :
  strings.HasPrefix s prefix = true <->
  exists post, s = (prefix ++ post)%string.
Proof.
  revert s. induction prefix as [|p prefix IH]; intros s; simpl.
  - split; [intros _; now exists s | reflexivity].
  - destruct s as [|c s]; simpl.
    + split; [discriminate | intros [post H]; discriminate].
    + rewrite andb_true_iff, Ascii.eqb_eq, IH. split.
      * intros [-> [post ->]]. now exists post.
      * intros [post H]. injection H as -> ->. split; [reflexivity | now exists post].
Qed.

Lemma indexFrom_lower_bound (from : Z) (s substr : string) :
  strings.indexFrom from s substr = -1 \/ from <= strings.indexFrom from s substr.
Proof.
  revert from. induction s as [|c s IH]; intros from; simpl.
  - destruct (strings.HasPrefix "" substr); [right; lia | now left].
  - destruct (strings.HasPrefix (String c s) substr); [right; lia |].
    destruct (IH (from + 1)) as [H | H]; [now left | right; lia].
Qed.

Lemma indexFrom_spec (from : Z) (s substr : string) :
  0 <= from ->
  (0 <= strings.indexFrom from s substr <-> contains s substr).
Proof.
  revert from. induction s as [|c s IH]; intros from Hfrom.
  - simpl. destruct (strings.HasPrefix "" substr) eqn:Hp.
    + split; [intros _ | lia].
      apply HasPrefix_spec in Hp. destruct Hp as [post Hp].
      exists ""%string, post. exact Hp.
    + split; [lia |]. intros [pre [post H]].
      destruct pre; [| discriminate].
      assert (strings.HasPrefix "" substr = true) as Hq
        by (apply HasPrefix_spec; now exists post).
      congruence.
  - cbn [strings.indexFrom].
    destruct (strings.HasPrefix (String c s) substr) eqn:Hp.
    + split; [intros _ | lia].
      apply HasPrefix_spec in Hp. destruct Hp as [post Hp].
      exists ""%string, post. exact Hp.
    + rewrite (IH (from + 1)) by lia. split.
      * intros [pre [post ->]]. now exists (String c pre), post.
      * intros [pre [post H]]. destruct pre as [|a pre].
        -- assert (strings.HasPrefix (String c s) substr = true) as Hq
             by (apply HasPrefix_spec; now exists post).
           congruence.
        -- simpl in H. injection H as _ ->. now exists pre, post.
Qed.

(** [strings.Contains] decides containment. *)
Lemma Contains_spec (s substr : string) :
  strings.Contains s substr = true <-> contains s substr.
Proof.
  unfold strings.Contains, strings.Index.
  rewrite Z.leb_le. apply indexFrom_spec. lia.
Qed.

Lemma Contains_false (s substr : string) :
  strings.Contains s substr = false <-> ~ contains s substr.
Proof.
  rewrite <- Contains_spec. destruct (strings.Contains s substr); split; congruence.
Qed.

Lemma lowerASCII_no_upper (s : string) :
  strings.hasUpper s = false -> strings.lowerASCII s = s.
Proof.
  induction s as [|c s IH]; simpl; [reflexivity |].
  rewrite orb_false_iff. intros [Hc Hs].
  unfold strings.lowerByte. rewrite Hc, (IH Hs). reflexivity.
Qed.

(** On a string of ASCII bytes [ToLower] lowers every byte, whatever
    the Unicode tables say. *)
Lemma ToLower_ASCII (s : string) :
  strings.isASCII s = true ->
  strings.ToLower MapUnicodeToLower s = strings.lowerASCII s.
Proof.
  intros H. unfold strings.ToLower. rewrite H.
  destruct (strings.hasUpper s) eqn:Hu; simpl; [reflexivity |].
  symmetry. now apply lowerASCII_no_upper.
Qed.

Lemma lowerASCII_app (s t : string) :
  strings.lowerASCII (s ++ t) =
  (strings.lowerASCII s ++ strings.lowerASCII t)%string.
Proof.
  induction s as [|c s IH]; simpl; [reflexivity | now rewrite IH].
Qed.

Lemma lowerASCII_split (s a b : string) :
  strings.lowerASCII s = (a ++ b)%string ->
  exists s1 s2, s = (s1 ++ s2)%string
    /\ strings.lowerASCII s1 = a /\ strings.lowerASCII s2 = b.
Proof.
  revert s. induction a as [|x a IH]; intros s H.
  - exists ""%string, s. repeat split. exact H.
  - destruct s as [|c s]; [discriminate |].
    simpl in H. injection H as Hc Hs.
    destruct (IH s Hs) as [s1 [s2 [-> [H1 H2]]]].
    exists (String c s1), s2. simpl. repeat split; [now rewrite Hc, H1 | exact H2].
Qed.

(** Containment in the lowered string is containment up to case. *)
Lemma contains_lowerASCII (s substr : string) :
  contains (strings.lowerASCII s) substr <-> containsFold s substr.
Proof.
  split.
  - intros [pre [post H]].
    apply lowerASCII_split in H. destruct H as [s1 [s2 [-> [_ H]]]].
    apply lowerASCII_split in H. destruct H as [s3 [s4 [-> [H _]]]].
    now exists s1, s3, s4.
  - intros [pre [mid [post [-> H]]]].
    exists (strings.lowerASCII pre), (strings.lowerASCII post).
    now rewrite !lowerASCII_app, H.
Qed.

(** ** Facts about [utf8] *)

Lemma from_length (n : nat) (s : string) :
  String.length (utf8.from n s) = (String.length s - n)%nat.
Proof.
  revert s. induction n as [| n IH]; intros s; simpl; [lia |].
  destruct s as [| c s]; simpl; [reflexivity | apply IH].
Qed.

Lemma upto_from (n : nat) (s : string) :
  (utf8.upto n s ++ utf8.from n s)%string = s.
Proof.
  revert s. induction n as [| n IH]; intros s; simpl.
  - destruct s; reflexivity.
  - destruct s as [| c s]; simpl; [reflexivity | now rewrite IH].
Qed.

Lemma from_app (n : nat) (s t : string) :
  (n <= String.length s)%nat ->
  utf8.from n (s ++ t) = (utf8.from n s ++ t)%string.
Proof.
  revert s. induction n as [| n IH]; intros s H; simpl; [reflexivity |].
  destruct s as [| c s]; simpl in *; [lia | apply IH; lia].
Qed.

Lemma byteAt_app_length (s : string) (a : ascii) (t : string) :
  utf8.byteAt (s ++ String a t) (String.length s) = Z.of_N (N_of_ascii a).
Proof.
  unfold utf8.byteAt. induction s as [| c s IH]; simpl; [reflexivity | exact IH].
Qed.

Lemma byteAt_range (s : string) (i : nat) : 0 <= utf8.byteAt s i < 256.
Proof.
  unfold utf8.byteAt. destruct (String.get i s) as [c |]; [| lia].
  pose proof (N_ascii_bounded c). lia.
Qed.

(** The table [first] takes nine values. *)
Lemma first_cases (b : Z) :
  (utf8.first b = utf8.as_ /\ b < 128)
  \/ utf8.first b = utf8.xx
  \/ utf8.first b = utf8.s1 \/ utf8.first b = utf8.s2
  \/ utf8.first b = utf8.s3 \/ utf8.first b = utf8.s4
  \/ utf8.first b = utf8.s5 \/ utf8.first b = utf8.s6
  \/ utf8.first b = utf8.s7.
Proof.
  unfold utf8.first.
  destruct (b <? 128) eqn:E; [left; split; [reflexivity | now apply Z.ltb_lt] |].
  repeat match goal with
         | |- context [if ?c then _ else _] => destruct c
         end; auto 10.
Qed.

(** An ASCII byte is a rune of its own. *)
Lemma decode_ascii (c : ascii) (s : string) :
  strings.byte_lt_RuneSelf c = true ->
  utf8.DecodeRuneInString (String c s) = (Z.of_N (N_of_ascii c), 1%nat).
Proof.
  intros H. unfold strings.byte_lt_RuneSelf, strings.RuneSelf in H.
  apply N.ltb_lt in H.
  unfold utf8.DecodeRuneInString.
  replace (Z.of_nat (String.length (String c s)) <? 1) with false
    by (symmetry; apply Z.ltb_ge; simpl; lia).
  change (utf8.byteAt (String c s) 0) with (Z.of_N (N_of_ascii c)).
  unfold utf8.first.
  replace (Z.of_N (N_of_ascii c) <? 128) with true
    by (symmetry; apply Z.ltb_lt; lia).
  reflexivity.
Qed.

(** A rune is one to four bytes wide, lies within the string, and every
    byte of it after the first is 128 or more. *)
Lemma decode_width (c : ascii) (s : string) (r : Z) (w : nat) :
  utf8.DecodeRuneInString (String c s) = (r, w) ->
  (1 <= w <= 4)%nat
  /\ (w <= String.length (String c s))%nat
  /\ (forall i : nat, (1 <= i < w)%nat -> 128 <= utf8.byteAt (String c s) i).
Proof.
  unfold utf8.DecodeRuneInString.
  replace (Z.of_nat (String.length (String c s)) <? 1) with false
    by (symmetry; apply Z.ltb_ge; simpl; lia).
  assert (1 <= Z.of_nat (String.length (String c s))) as Hn1 by (simpl; lia).
  remember (String.length (String c s)) as len eqn:Hlen.
  remember (utf8.byteAt (String c s) 0) as b0.
  remember (utf8.byteAt (String c s) 1) as b1 eqn:Hb1.
  remember (utf8.byteAt (String c s) 2) as b2 eqn:Hb2.
  remember (utf8.byteAt (String c s) 3) as b3 eqn:Hb3.
  remember (String c s) as str.
  destruct (first_cases b0) as [[Hx _] | [Hx | [Hx | [Hx | [Hx | [Hx | [Hx | [Hx | Hx]]]]]]]];
    rewrite Hx; cbv beta iota zeta delta
      [utf8.as_ utf8.xx utf8.s1 utf8.s2 utf8.s3 utf8.s4 utf8.s5 utf8.s6 utf8.s7];
    simpl;
    repeat match goal with
           | |- (if ?b then _ else _) = _ -> _ => destruct b eqn:?
           end;
    intros Heq; injection Heq as <- <-;
    repeat match goal with
           | H : (_ || _) = false |- _ => apply orb_false_iff in H; destruct H
           | H : (_ <? _) = false |- _ => apply Z.ltb_ge in H
           end;
    cbv [utf8.locb utf8.hicb fst snd] in *;
    (split; [lia |]); (split; [lia |]);
    intros i Hi;
    (destruct i as [| [| [| [| i]]]]; try lia; subst; lia).
Qed.

(** A rune that starts before an ASCII byte ends before it. *)
Lemma decode_stops_before_ascii (c : ascii) (pre : string) (a : ascii)
  (rest : string) (r : Z) (w : nat) :
  strings.byte_lt_RuneSelf a = true ->
  utf8.DecodeRuneInString (String c pre ++ String a rest) = (r, w) ->
  (1 <= w <= String.length (String c pre))%nat.
Proof.
  intros Ha Hd.
  change (String c pre ++ String a rest)%string
    with (String c (pre ++ String a rest)) in Hd.
  destruct (decode_width _ _ _ _ Hd) as (Hw & _ & Hb).
  split; [lia |].
  destruct (Nat.le_gt_cases w (String.length (String c pre))) as [Hle | Hgt];
    [exact Hle | exfalso].
  specialize (Hb (String.length (String c pre))).
  change (String c (pre ++ String a rest))
    with (String c pre ++ String a rest)%string in Hb.
  rewrite byteAt_app_length in Hb.
  unfold strings.byte_lt_RuneSelf, strings.RuneSelf in Ha.
  apply N.ltb_lt in Ha.
  assert (128 <= Z.of_N (N_of_ascii a)) by (apply Hb; simpl; simpl in Hgt; lia).
  lia.
Qed.

(** *** Lower-casing by [Map] keeps runs of ASCII bytes *)

Lemma string_length_app (s t : string) :
  String.length (s ++ t) = (String.length s + String.length t)%nat.
Proof. induction s as [| c s IH]; simpl; [reflexivity | now rewrite IH]. Qed.

Lemma string_app_assoc (s t u : string) :
  ((s ++ t) ++ u)%string = (s ++ t ++ u)%string.
Proof. induction s as [| c s IH]; simpl; [reflexivity | now rewrite IH]. Qed.

(** On an ASCII byte [unicode.ToLower] does not look at the tables, and
    gives the byte [ToLower] writes on its ASCII path. *)
Lemma lower_rune_ascii (tbl : Z -> Z) (c : ascii) :
  strings.byte_lt_RuneSelf c = true ->
  (0 <=? unicode.ToLower tbl (Z.of_N (N_of_ascii c))) = true
  /\ (unicode.ToLower tbl (Z.of_N (N_of_ascii c)) <? utf8.RuneSelf) = true
  /\ utf8.byte_of (unicode.ToLower tbl (Z.of_N (N_of_ascii c))) = strings.lowerByte c.
Proof.
  destruct c as [[] [] [] [] [] [] [] []]; intros H;
    vm_compute in H; try discriminate H; vm_compute; repeat split.
Qed.

Lemma mapRunes_ascii_run (tbl : Z -> Z) (mid post : string) (fuel : nat) :
  strings.isASCII mid = true ->
  (String.length (mid ++ post) <= fuel)%nat ->
  strings.mapRunes fuel (unicode.ToLower tbl) (mid ++ post) =
  (strings.lowerASCII mid
   ++ strings.mapRunes (fuel - String.length mid) (unicode.ToLower tbl) post)%string.
Proof.
  revert fuel. induction mid as [| c mid IH]; intros fuel Ha Hl.
  - simpl. now rewrite Nat.sub_0_r.
  - destruct fuel as [| fuel]; [simpl in Hl; lia |].
    simpl in Ha. apply andb_true_iff in Ha. destruct Ha as [Hc Hm].
    change (String c mid ++ post)%string with (String c (mid ++ post)).
    cbn [strings.mapRunes]. rewrite (decode_ascii c _ Hc).
    destruct (lower_rune_ascii tbl c Hc) as (H0 & H1 & H2).
    rewrite H0, H1, H2. cbn [utf8.from String.append strings.lowerASCII String.length].
    rewrite IH; [reflexivity | exact Hm | simpl in Hl; lia].
Qed.

Lemma mapRunes_keeps_ascii_run (tbl : Z -> Z) (fuel : nat) (pre : string)
  (a : ascii) (mid post : string) :
  strings.isASCII (String a mid) = true ->
  (String.length (pre ++ String a mid ++ post) <= fuel)%nat ->
  exists X Y : string,
    strings.mapRunes fuel (unicode.ToLower tbl) (pre ++ String a mid ++ post) =
    (X ++ strings.lowerASCII (String a mid) ++ Y)%string.
Proof.
  revert pre. induction fuel as [| fuel IH]; intros pre Ha Hl.
  - rewrite string_length_app in Hl. simpl in Hl. lia.
  - destruct pre as [| c pre].
    + exists EmptyString. eexists.
      change (EmptyString ++ String a mid ++ post)%string
        with (String a mid ++ post)%string.
      rewrite (mapRunes_ascii_run tbl (String a mid) post (S fuel) Ha Hl).
      reflexivity.
    + assert (strings.byte_lt_RuneSelf a = true) as Hbyte
        by (simpl in Ha; now apply andb_true_iff in Ha).
      change (String a mid ++ post)%string with (String a (mid ++ post)) in *.
      destruct (utf8.DecodeRuneInString (String c pre ++ String a (mid ++ post)))
        as [r w] eqn:Hd.
      destruct (decode_stops_before_ascii c pre a (mid ++ post) r w Hbyte Hd)
        as [Hw1 Hw2].
      change (String c pre ++ String a (mid ++ post))%string
        with (String c (pre ++ String a (mid ++ post))) in *.
      cbn [strings.mapRunes]. rewrite Hd.
      change (String c (pre ++ String a (mid ++ post)))
        with (String c pre ++ String a (mid ++ post))%string.
      rewrite (from_app w (String c pre) _ Hw2).
      destruct (IH (utf8.from w (String c pre)) Ha) as (X & Y & HXY).
      { rewrite string_length_app, from_length.
        change (String c (pre ++ String a (mid ++ post)))
          with (String c pre ++ String a (mid ++ post))%string in Hl.
        rewrite string_length_app in Hl. lia. }
      change (String a mid ++ post)%string with (String a (mid ++ post)) in HXY.
      rewrite HXY. eexists. exists Y.
      rewrite <- string_app_assoc. reflexivity.
Qed.

(** Whatever the case tables say and whatever else a string holds, the
    lower-cased string contains the lower case of every run of ASCII
    bytes of the string. *)
Lemma ToLower_keeps_ascii_run (tbl : Z -> Z) (pre mid post : string) :
  strings.isASCII mid = true ->
  contains (strings.ToLower (strings.MapToLower tbl) (pre ++ mid ++ post))
    (strings.lowerASCII mid).
Proof.
  intros Ha. unfold strings.ToLower.
  destruct (strings.isASCII (pre ++ mid ++ post)) eqn:Hall.
  - assert (contains (strings.lowerASCII (pre ++ mid ++ post)) (strings.lowerASCII mid))
      as Hc.
    { exists (strings.lowerASCII pre), (strings.lowerASCII post).
      now rewrite !lowerASCII_app. }
    destruct (strings.hasUpper (pre ++ mid ++ post)) eqn:Hu; simpl; [exact Hc |].
    now rewrite <- (lowerASCII_no_upper _ Hu).
  - destruct mid as [| a mid].
    + exists (strings.MapToLower tbl (pre ++ "" ++ post)), EmptyString.
      simpl. clear. induction (strings.MapToLower tbl (pre ++ post)) as [| c s IH];
        simpl; [reflexivity | now rewrite <- IH].
    + unfold strings.MapToLower, strings.Map.
      destruct (mapRunes_keeps_ascii_run tbl
                  (String.length (pre ++ String a mid ++ post))
                  pre a mid post Ha (Nat.le_refl _)) as (X & Y & H).
      rewrite H. now exists X, Y.
Qed.

(** *** Case folding, said without the lower-casing of the code *)

Lemma in_all_bytes (c : ascii) : In c all_bytes.
Proof.
  unfold all_bytes. apply in_map_iff. exists (nat_of_ascii c).
  split; [apply ascii_nat_embedding |].
  apply in_seq. pose proof (nat_ascii_bounded c). lia.
Qed.

(** Two bytes are the same up to case exactly when [ToLower] sends them
    to the same byte. *)
Lemma same_letter_lowerByte (c d : ascii) :
  same_letter c d = Ascii.eqb (strings.lowerByte c) (strings.lowerByte d).
Proof.
  assert (forallb
            (fun c => forallb
               (fun d => Bool.eqb (same_letter c d)
                           (Ascii.eqb (strings.lowerByte c) (strings.lowerByte d)))
               all_bytes) all_bytes = true) as H by (vm_compute; reflexivity).
  rewrite forallb_forall in H. specialize (H c (in_all_bytes c)).
  rewrite forallb_forall in H. specialize (H d (in_all_bytes d)).
  now apply Bool.eqb_prop in H.
Qed.

Lemma equal_fold_lowerASCII (s t : string) :
  equal_fold s t = true <-> strings.lowerASCII s = strings.lowerASCII t.
Proof.
  revert t. induction s as [| c s IH]; intros [| d t]; simpl;
    try (split; [reflexivity | reflexivity]);
    try (split; discriminate).
  rewrite andb_true_iff, same_letter_lowerByte, Ascii.eqb_eq, IH. split.
  - intros [-> ->]. reflexivity.
  - intros H. injection H as H1 H2. split; assumption.
Qed.

Lemma lowerByte_ASCII (c : ascii) :
  strings.byte_lt_RuneSelf (strings.lowerByte c) = strings.byte_lt_RuneSelf c.
Proof. destruct c as [[] [] [] [] [] [] [] []]; reflexivity. Qed.

Lemma isASCII_lowerASCII (s : string) :
  strings.isASCII (strings.lowerASCII s) = strings.isASCII s.
Proof.
  induction s as [| c s IH]; simpl; [reflexivity |].
  now rewrite lowerByte_ASCII, IH.
Qed.

(** For a phrase of lower-case ASCII: a string contains it in some
    mixture of cases exactly when the string, with its ASCII capitals
    lowered, contains it. *)
Lemma contains_ignoring_case_lowerASCII (s phrase : string) :
  strings.lowerASCII phrase = phrase ->
  (contains_ignoring_case s phrase <-> contains (strings.lowerASCII s) phrase).
Proof.
  intros Hp. rewrite contains_lowerASCII. unfold containsFold. split.
  - intros (pre & mid & post & -> & H). exists pre, mid, post.
    split; [reflexivity |]. apply equal_fold_lowerASCII in H. congruence.
  - intros (pre & mid & post & -> & H). exists pre, mid, post.
    split; [reflexivity |]. apply equal_fold_lowerASCII. congruence.
Qed.

(** Whatever the case tables say and whatever else the string holds: a
    string that contains a lower-case ASCII phrase in some mixture of cases
    is lower-cased to a string that contains the phrase. *)
Lemma ToLower_contains_ignoring_case (tbl : Z -> Z) (s phrase : string) :
  strings.lowerASCII phrase = phrase ->
  strings.isASCII phrase = true ->
  contains_ignoring_case s phrase ->
  contains (strings.ToLower (strings.MapToLower tbl) s) phrase.
Proof.
  intros Hp Ha (pre & mid & post & -> & H).
  apply equal_fold_lowerASCII in H. rewrite Hp in H.
  rewrite <- H. apply ToLower_keeps_ascii_run.
  rewrite <- isASCII_lowerASCII, H. exact Ha.
Qed.

(** *** What the JSON encoder makes of a string *)

Lemma coerceFrom_ASCII (fuel : nat) (s : string) :
  strings.isASCII s = true -> (String.length s <= fuel)%nat ->
  json.coerceFrom fuel s = s.
Proof.
  revert fuel. induction s as [| c s IH]; intros fuel Ha Hl.
  - destruct fuel; reflexivity.
  - destruct fuel as [| fuel]; [simpl in Hl; lia |].
    simpl in Ha. apply andb_true_iff in Ha. destruct Ha as [Hc Hs].
    cbn [json.coerceFrom].
    unfold strings.byte_lt_RuneSelf, strings.RuneSelf in Hc. apply N.ltb_lt in Hc.
    replace (Z.of_N (N_of_ascii c) <? utf8.RuneSelf) with true
      by (symmetry; apply Z.ltb_lt; unfold utf8.RuneSelf; lia).
    rewrite IH; [reflexivity | exact Hs | simpl in Hl; lia].
Qed.

(** A string of ASCII bytes goes out as it is. *)
Lemma coerce_ASCII (s : string) :
  strings.isASCII s = true -> json.coerce s = s.
Proof. intros H. apply coerceFrom_ASCII; [exact H | lia]. Qed.

Lemma coerceFrom_valid (fuel fuel' : nat) (s : string) :
  (String.length s <= fuel)%nat -> (String.length s <= fuel')%nat ->
  utf8.validFrom fuel s = true -> json.coerceFrom fuel' s = s.
Proof.
  revert fuel' s. induction fuel as [| fuel IH]; intros fuel' s Hl Hl' Hv.
  - destruct s; [destruct fuel'; reflexivity | simpl in Hl; lia].
  - destruct s as [| c s]; [destruct fuel'; reflexivity |].
    destruct fuel' as [| fuel']; [simpl in Hl'; lia |].
    cbn [utf8.validFrom] in Hv. cbn [json.coerceFrom].
    destruct (utf8.DecodeRuneInString (String c s)) as [r size] eqn:Hd.
    destruct (decode_width _ _ _ _ Hd) as (Hw & Hin & _).
    destruct ((r =? utf8.RuneError) && Nat.eqb size 1) eqn:Hbad; [discriminate Hv |].
    assert (String.length (utf8.from size (String c s)) <= fuel)%nat as Hf
      by (rewrite from_length; cbn [String.length] in *; lia).
    assert (String.length (utf8.from size (String c s)) <= fuel')%nat as Hf'
      by (rewrite from_length; cbn [String.length] in *; lia).
    destruct (Z.of_N (N_of_ascii c) <? utf8.RuneSelf) eqn:Ha.
    + assert (strings.byte_lt_RuneSelf c = true) as Hc.
      { unfold strings.byte_lt_RuneSelf, strings.RuneSelf.
        apply Z.ltb_lt in Ha. unfold utf8.RuneSelf in Ha.
        apply N.ltb_lt. lia. }
      rewrite (decode_ascii c s Hc) in Hd. injection Hd as <- <-.
      cbn [utf8.from] in Hv, Hf, Hf'.
      now rewrite (IH fuel' s Hf Hf' Hv).
    + rewrite (IH fuel' _ Hf Hf' Hv). apply upto_from.
Qed.

(** A string of valid UTF-8 goes out as it is. *)
Lemma coerce_valid (s : string) :
  utf8.ValidString s = true -> json.coerce s = s.
Proof.
  intros H. exact (coerceFrom_valid _ _ s (Nat.le_refl _) (Nat.le_refl _) H).
Qed.

(** ** The error classifier *)

Lemma handleError_timeout (resp : Response) :
  strings.Contains (strings.ToLower MapUnicodeToLower (Message resp))
    timeout_message = true ->
  handleError resp = ErrRequestTimeout.
Proof.
  intros H. unfold handleError. fold timeout_message. now rewrite H.
Qed.

Lemma handleError_unexpected (resp : Response) :
  strings.Contains (strings.ToLower MapUnicodeToLower (Message resp))
    timeout_message = false ->
  handleError resp =
  wrapError ("unexpected error from FlareSolverr server: " ++ Message resp)
    ErrUnexpectedError.
Proof.
  intros H. unfold handleError. fold timeout_message. now rewrite H.
Qed.

(** C9.  Two replies whose lower-cased messages both contain "maximum
    timeout reached" are classified to the same error, the RequestTimeout
    sentinel: its text is the fixed phrase and it wraps nothing, so nothing
    of the messages survives.  The other branch differs: there the text of
    the error ends with the message. *)
Theorem handleError_timeout_discards_message (r1 r2 : Response) :
  contains (strings.ToLower MapUnicodeToLower (Message r1)) timeout_message ->
  contains (strings.ToLower MapUnicodeToLower (Message r2)) timeout_message ->
  handleError r1 = ErrRequestTimeout
  /\ handleError r2 = handleError r1
  /\ Error (handleError r1) = timeout_message
  /\ Unwrap (handleError r1) = None
  /\ (forall r : Response,
        ~ contains (strings.ToLower MapUnicodeToLower (Message r)) timeout_message ->
        Error (handleError r) =
        (Error ErrUnexpectedError ++ ": " ++ Message r)%string).
Proof.
  intros H1 H2.
  apply Contains_spec in H1. apply Contains_spec in H2.
  rewrite (handleError_timeout r1 H1), (handleError_timeout r2 H2).
  repeat split.
  intros r Hr. apply Contains_false in Hr.
  now rewrite (handleError_unexpected r Hr).
Qed.

(** ** Identifiers *)

Lemma uuid_eqb_eq (a b : uuid.UUID) : uuid.eqb a b = true <-> a = b.
Proof.
  revert b. induction a as [|x a IH]; intros [|y b]; simpl;
    try (split; [discriminate | congruence]); [split; reflexivity |].
  rewrite andb_true_iff, IH. split.
  - intros [H ->]. apply Byte.byte_dec_bl in H. now subst.
  - intros H. injection H as -> ->. split; [now apply Byte.byte_dec_lb | reflexivity].
Qed.

Lemma high_digit_hex (v : byte) : is_lower_hex (high_digit v) = true.
Proof. destruct v; reflexivity. Qed.

Lemma low_digit_hex (v : byte) : is_lower_hex (low_digit v) = true.
Proof. destruct v; reflexivity. Qed.

Lemma high_digit_not_hyphen (v : byte) : high_digit v <> "-"%char.
Proof. destruct v; discriminate. Qed.

Lemma byte_of_digits_encode (v : byte) :
  byte_of_digits (high_digit v) (low_digit v) = Some v.
Proof. destruct v; reflexivity. Qed.

(** What [String] computes, byte by byte: the buffer writes of
    [encodeHex] amount to the digits of the sixteen bytes in order, with a
    hyphen after the bytes 4, 6, 8 and 10. *)
Lemma uuid_String_digits (b0 b1 b2 b3 b4 b5 b6 b7 b8 b9 b10 b11 b12 b13 b14 b15 : byte) :
  uuid.String [b0; b1; b2; b3; b4; b5; b6; b7; b8; b9; b10; b11; b12; b13; b14; b15] =
  string_of_list_ascii
    [high_digit b0; low_digit b0; high_digit b1; low_digit b1;
     high_digit b2; low_digit b2; high_digit b3; low_digit b3; "-"%char;
     high_digit b4; low_digit b4; high_digit b5; low_digit b5; "-"%char;
     high_digit b6; low_digit b6; high_digit b7; low_digit b7; "-"%char;
     high_digit b8; low_digit b8; high_digit b9; low_digit b9; "-"%char;
     high_digit b10; low_digit b10; high_digit b11; low_digit b11;
     high_digit b12; low_digit b12; high_digit b13; low_digit b13;
     high_digit b14; low_digit b14; high_digit b15; low_digit b15].
Proof. reflexivity. Qed.

Lemma wf_sixteen (u : uuid.UUID) :
  uuid.wf u ->
  exists b0 b1 b2 b3 b4 b5 b6 b7 b8 b9 b10 b11 b12 b13 b14 b15,
    u = [b0; b1; b2; b3; b4; b5; b6; b7; b8; b9; b10; b11; b12; b13; b14; b15].
Proof.
  unfold uuid.wf. intros H.
  do 16 (destruct u as [|? u]; [discriminate H |]).
  destruct u; [| discriminate H].
  repeat eexists.
Qed.

Lemma uuid_String_length (u : uuid.UUID) :
  uuid.wf u -> String.length (uuid.String u) = 36%nat.
Proof.
  intros H. destruct (wf_sixteen u H) as (b0&b1&b2&b3&b4&b5&b6&b7&b8&b9&b10&b11&b12&b13&b14&b15&->).
  rewrite uuid_String_digits. reflexivity.
Qed.

Lemma uuid_String_canonical (u : uuid.UUID) :
  uuid.wf u -> is_canonical (uuid.String u) = true.
Proof.
  intros H. destruct (wf_sixteen u H) as (b0&b1&b2&b3&b4&b5&b6&b7&b8&b9&b10&b11&b12&b13&b14&b15&->).
  rewrite uuid_String_digits.
  cbn -[high_digit low_digit is_lower_hex].
  rewrite !high_digit_hex, !low_digit_hex. reflexivity.
Qed.

Lemma bytes_of_digits_pair (v : byte) (s : string) :
  bytes_of_digits (String (high_digit v) (String (low_digit v) s)) =
  match bytes_of_digits s with
  | Some bs => Some (v :: bs)
  | None => None
  end.
Proof.
  pose proof (high_digit_not_hyphen v) as Hh.
  cbn [bytes_of_digits]. rewrite byte_of_digits_encode.
  destruct (high_digit v) as [[] [] [] [] [] [] [] []]; try reflexivity.
  now elim Hh.
Qed.

Lemma bytes_of_digits_hyphen (s : string) :
  bytes_of_digits (String "-" s) = bytes_of_digits s.
Proof. reflexivity. Qed.

(** Reading back the string of an identifier gives the identifier. *)
Lemma parseCanonical_String (u : uuid.UUID) :
  uuid.wf u -> parseCanonical (uuid.String u) = Some u.
Proof.
  intros H. unfold parseCanonical. rewrite (uuid_String_canonical u H).
  destruct (wf_sixteen u H) as (b0&b1&b2&b3&b4&b5&b6&b7&b8&b9&b10&b11&b12&b13&b14&b15&->).
  rewrite uuid_String_digits.
  cbn [string_of_list_ascii].
  do 4 (rewrite !bytes_of_digits_pair; rewrite bytes_of_digits_hyphen).
  rewrite !bytes_of_digits_pair.
  reflexivity.
Qed.

Lemma uuid_String_injective (u v : uuid.UUID) :
  uuid.wf u -> uuid.wf v -> uuid.String u = uuid.String v -> u = v.
Proof.
  intros Hu Hv H.
  pose proof (parseCanonical_String u Hu) as Pu.
  rewrite H, (parseCanonical_String v Hv) in Pu. congruence.
Qed.

Lemma handleSession_Nil : handleSession uuid.Nil = ""%string.
Proof. reflexivity. Qed.

Lemma handleSession_not_Nil (session : uuid.UUID) :
  session <> uuid.Nil -> handleSession session = uuid.String session.
Proof.
  intros H. unfold handleSession.
  destruct (uuid.eqb session uuid.Nil) eqn:E; [| reflexivity].
  apply uuid_eqb_eq in E. contradiction.
Qed.

(** C3.  For an identifier (sixteen bytes): the string [handleSession]
    returns is empty exactly when the identifier is the zero one; for any
    other identifier it is the identifier's [String()], which is 36 bytes
    long, has the canonical layout (lower-case hexadecimal digits, hyphens
    at the offsets 8, 13, 18 and 23) and reads back as that identifier; and
    it is never the string of the zero identifier. *)
Theorem handleSession_serializes (session : uuid.UUID) :
  uuid.wf session ->
  (handleSession session = ""%string <-> session = uuid.Nil)
  /\ (session <> uuid.Nil ->
      handleSession session = uuid.String session
      /\ String.length (handleSession session) = 36%nat
      /\ is_canonical (handleSession session) = true
      /\ parseCanonical (handleSession session) = Some session)
  /\ handleSession session <> uuid.String uuid.Nil.
Proof.
  intros Hwf.
  assert (session <> uuid.Nil -> handleSession session <> ""%string) as Hne.
  { intros Hn Hs. rewrite (handleSession_not_Nil session Hn) in Hs.
    pose proof (uuid_String_length session Hwf) as Hl.
    rewrite Hs in Hl. discriminate Hl. }
  split; [| split].
  - split.
    + intros Hs. destruct (uuid.eqb session uuid.Nil) eqn:E.
      * now apply uuid_eqb_eq.
      * exfalso. apply Hne; [| exact Hs].
        intros ->. discriminate E.
    + intros ->. apply handleSession_Nil.
  - intros Hn. rewrite (handleSession_not_Nil session Hn).
    repeat split.
    + now apply uuid_String_length.
    + now apply uuid_String_canonical.
    + now apply parseCanonical_String.
  - destruct (uuid.eqb session uuid.Nil) eqn:E.
    + apply uuid_eqb_eq in E. subst session. discriminate.
    + assert (session <> uuid.Nil) as Hn by (intros ->; discriminate E).
      rewrite (handleSession_not_Nil session Hn). intros Hs.
      apply Hn. apply uuid_String_injective; [exact Hwf | reflexivity | exact Hs].
Qed.

(** ** Durations and machine integers *)

Lemma int64_id (z : Z) : GoInt.is_int64 z -> GoInt.int64 z = z.
Proof.
  unfold GoInt.is_int64, GoInt.MinInt64, GoInt.MaxInt64, GoInt.int64, GoInt.wrap.
  change (2 ^ (64 - 1)) with 9223372036854775808.
  change (2 ^ 63) with 9223372036854775808.
  change (2 ^ 64) with 18446744073709551616.
  intros H. rewrite Z.mod_small by lia. lia.
Qed.

Lemma quot_million_int64 (d : Z) :
  GoInt.is_int64 d -> GoInt.is_int64 (Z.quot d 1000000).
Proof.
  unfold GoInt.is_int64, GoInt.MinInt64, GoInt.MaxInt64.
  change (2 ^ 63) with 9223372036854775808. intros H.
  Z.to_euclidean_division_equations. lia.
Qed.

(** The field [MaxTimeout] for a configured timeout: the whole
    milliseconds of the duration, rounded toward zero. *)
Lemma int_Milliseconds (d : time.Duration) :
  GoInt.is_int64 d -> GoInt.int (time.Milliseconds d) = Z.quot d 1000000.
Proof.
  intros H. unfold time.Milliseconds, GoInt.div64.
  rewrite (int64_id _ (quot_million_int64 d H)).
  exact (int64_id _ (quot_million_int64 d H)).
Qed.

Lemma add_ten_seconds (d : time.Duration) :
  GoInt.is_int64 (d + 10000000000) ->
  time.add d (10 * time.Second) = d + 10000000000.
Proof.
  intros H. unfold time.add, GoInt.add64.
  change (10 * time.Second) with 10000000000. now apply int64_id.
Qed.

(** ** The constructor *)

(** C5.  [New] keeps the base URL; a zero timeout becomes 60000
    milliseconds (sixty seconds) and any other timeout is kept as it is; no
    HTTP client (nil) becomes the shared default client and a client that is
    given is kept, the same address. *)
Theorem New_defaults (base : string) (t : time.Duration)
  (cl : http.ClientRef) (h : option http.ClientRef) :
  baseURL (New base t h) = base
  /\ timeout (New base 0 h) = 60000 * time.Millisecond
  /\ time.Milliseconds (timeout (New base 0 h)) = 60000
  /\ (t <> 0 -> timeout (New base t h) = t)
  /\ httpClient (New base t None) = Some http.DefaultClient
  /\ httpClient (New base t (Some cl)) = Some cl.
Proof.
  repeat split.
  intros Ht. unfold New; simpl.
  destruct (t =? 0) eqn:E; [| reflexivity].
  apply Z.eqb_eq in E. contradiction.
Qed.

Lemma New_httpClient (base : string) (t : time.Duration)
  (h : option http.ClientRef) :
  httpClient (New base t h) <> None.
Proof. destruct h; discriminate. Qed.

(** ** The wire form of a command *)

Lemma json_Encode_maxTimeout (cmd : flaresolverrCommand) (payload : json.value) :
  json_Encode cmd = inl payload ->
  json.get "maxTimeout" payload = Some (json.Number (MaxTimeout cmd)).
Proof.
  unfold json_Encode. destruct (json.encodeElems (Cookies cmd)); [| discriminate].
  intros H. injection H as <-.
  unfold json.member_omitempty.
  destruct (String.eqb (Session cmd) ""); reflexivity.
Qed.

Lemma json_Encode_postData (cmd : flaresolverrCommand) (payload : json.value) :
  Cookies cmd = [] -> ReturnOnlyCookies cmd = false ->
  json_Encode cmd = inl payload ->
  json.get "postData" payload = wire_string (PostData cmd).
Proof.
  unfold json_Encode. intros -> ->. simpl. intros H. injection H as <-.
  unfold json.member_omitempty, wire_string.
  destruct (String.eqb (Session cmd) ""), (String.eqb (Proxy cmd) ""),
    (String.eqb (PostData cmd) ""); reflexivity.
Qed.

Lemma json_Encode_no_cookies (cmd : flaresolverrCommand) (payload : json.value) :
  Cookies cmd = [] -> ReturnOnlyCookies cmd = false ->
  json_Encode cmd = inl payload ->
  json.get "cookies" payload = None
  /\ json.get "returnOnlyCookies" payload = None.
Proof.
  unfold json_Encode. intros -> ->. simpl. intros H. injection H as <-.
  unfold json.member_omitempty.
  destruct (String.eqb (Session cmd) ""), (String.eqb (Proxy cmd) ""),
    (String.eqb (PostData cmd) ""); split; reflexivity.
Qed.

(** ** The shared dispatch *)

Lemma do_command (c : client) (ctx : context.Context) (cmd : flaresolverrCommand) :
  fst (do c ctx cmd) = set_MaxTimeout cmd (wire_timeout c).
Proof.
  unfold do. fold (wire_timeout c).
  destruct (json_Encode _); [| reflexivity].
  destruct (http.NewRequestWithContext _ _ _ _ _); [| reflexivity].
  destruct (httpClient c); [| reflexivity].
  destruct (http_Do _ _); [| reflexivity].
  destruct (json_Decode _); [| reflexivity].
  destruct (negb _); reflexivity.
Qed.

(** A request [do] sends is the POST of the encoded command, after the
    timeout was stored in it, to the base URL, with the JSON content type
    and the derived context. *)
Lemma do_sent (c : client) (ctx : context.Context) (cmd : flaresolverrCommand)
  (req : http.Request) :
  In req (sent (snd (do c ctx cmd))) ->
  exists payload,
    json_Encode (set_MaxTimeout cmd (wire_timeout c)) = inl payload
    /\ req = http.mkRequest "POST" (baseURL c)
               [("Content-Type", "application/json")%string] payload
               (request_context c ctx).
Proof.
  unfold do. fold (wire_timeout c). fold (request_context c ctx).
  destruct (json_Encode _) as [payload | err]; [| intros []].
  unfold http.NewRequestWithContext.
  destruct (url_Parse_error (baseURL c)); [intros [] |].
  destruct (httpClient c) as [cl |]; [| intros []].
  unfold http.Header_Set; simpl.
  intros Hin. exists payload. split; [reflexivity |].
  destruct (http_Do cl _); [destruct (json_Decode _); [destruct (negb _) |] |];
    simpl in Hin; destruct Hin as [<- | []]; reflexivity.
Qed.

(** With encodable cookies, a base URL that parses and an HTTP client,
    [do] sends exactly one request. *)
Lemma do_sends_one (c : client) (ctx : context.Context) (cmd : flaresolverrCommand) :
  (exists cookies, json.encodeElems (Cookies cmd) = inl cookies) ->
  url_Parse_error (baseURL c) = None ->
  httpClient c <> None ->
  exists req, sent (snd (do c ctx cmd)) = [req].
Proof.
  intros [cookies Hc] Hu Hh. unfold do.
  unfold json_Encode. simpl. rewrite Hc.
  unfold http.NewRequestWithContext. rewrite Hu.
  destruct (httpClient c) as [cl |]; [| contradiction].
  destruct (http_Do cl _); [destruct (json_Decode _); [destruct (negb _) |] |];
    eexists; reflexivity.
Qed.

Lemma do_returns (c : client) (ctx : context.Context) (cmd : flaresolverrCommand) :
  httpClient c <> None ->
  exists resp err, ret (snd (do c ctx cmd)) = returns (resp, err).
Proof.
  intros Hh. unfold do.
  destruct (json_Encode _); [| eexists _, _; reflexivity].
  destruct (http.NewRequestWithContext _ _ _ _ _); [| eexists _, _; reflexivity].
  destruct (httpClient c) as [cl |]; [| contradiction].
  destruct (http_Do cl _); [| eexists _, _; reflexivity].
  destruct (json_Decode _); [| eexists _, _; reflexivity].
  destruct (negb _); eexists _, _; reflexivity.
Qed.

Lemma do_exclusive (c : client) (ctx : context.Context) (cmd : flaresolverrCommand)
  (resp : option Response) (err : option error) :
  ret (snd (do c ctx cmd)) = returns (resp, err) ->
  (resp <> None /\ err = None) \/ (resp = None /\ err <> None).
Proof.
  unfold do.
  destruct (json_Encode _).
  2:{ simpl. intros H. injection H as <- <-. right. split; [reflexivity | discriminate]. }
  destruct (http.NewRequestWithContext _ _ _ _ _).
  2:{ simpl. intros H. injection H as <- <-. right. split; [reflexivity | discriminate]. }
  destruct (httpClient c) as [cl |]; [| discriminate].
  destruct (http_Do cl _).
  2:{ simpl. intros H. injection H as <- <-. right. split; [reflexivity | discriminate]. }
  destruct (json_Decode _).
  2:{ simpl. intros H. injection H as <- <-. right. split; [reflexivity | discriminate]. }
  destruct (negb _); simpl; intros H; injection H as <- <-.
  - right. split; [reflexivity | discriminate].
  - left. split; [discriminate | reflexivity].
Qed.

(** What [do] returns once the HTTP client has answered the request. *)
Lemma do_reply (c : client) (ctx : context.Context) (cmd : flaresolverrCommand)
  (cl : http.ClientRef) (req : http.Request) (reply : http.Response) :
  sent (snd (do c ctx cmd)) = [req] ->
  httpClient c = Some cl ->
  http_Do cl req = inl reply ->
  ret (snd (do c ctx cmd)) =
  match json_Decode (http.Body reply) with
  | inr err =>
      returns (None, Some (fmt.Errorf_w "cannot read flaresolverr response: " err))
  | inl response =>
      if http.StatusCode reply =? 200
      then returns (Some response, None)
      else returns (None, Some (handleError response))
  end.
Proof.
  unfold do.
  destruct (json_Encode _); [| discriminate].
  destruct (http.NewRequestWithContext _ _ _ _ _) as [rq |]; [| discriminate].
  intros Hs Hc. rewrite Hc in *.
  assert (http.Header_Set rq "Content-Type" "application/json" = req) as ->.
  { destruct (http_Do cl _); [destruct (json_Decode _); [destruct (negb _) |] |];
      simpl in Hs; congruence. }
  intros ->.
  destruct (json_Decode _); [| reflexivity].
  change http.StatusOK with 200.
  destruct (http.StatusCode reply =? 200); reflexivity.
Qed.

(** C2.  Whatever the status code of the reply, its body is decoded
    (a body that does not decode is an error at every status).  With a
    decoded [Response], status 200 returns it with a nil error, and every
    other status returns a nil [Response] with the classified error.  Every
    return of [do] has exactly one of the two set, and [do] does return when
    the client has an HTTP client. *)
Theorem do_no_partial_success (c : client) (ctx : context.Context)
  (cmd : flaresolverrCommand) :
  (httpClient c <> None ->
   exists resp err, ret (snd (do c ctx cmd)) = returns (resp, err))
  /\ (forall resp err,
        ret (snd (do c ctx cmd)) = returns (resp, err) ->
        (resp <> None /\ err = None) \/ (resp = None /\ err <> None))
  /\ (forall cl req reply,
        sent (snd (do c ctx cmd)) = [req] ->
        httpClient c = Some cl ->
        http_Do cl req = inl reply ->
        (forall response,
           json_Decode (http.Body reply) = inl response ->
           (http.StatusCode reply = 200 ->
            ret (snd (do c ctx cmd)) = returns (Some response, None))
           /\ (http.StatusCode reply <> 200 ->
               ret (snd (do c ctx cmd)) = returns (None, Some (handleError response))))
        /\ (forall err,
             json_Decode (http.Body reply) = inr err ->
             ret (snd (do c ctx cmd)) =
             returns (None, Some (fmt.Errorf_w "cannot read flaresolverr response: " err)))).
Proof.
  split; [apply do_returns | split; [apply do_exclusive |]].
  intros cl req reply Hs Hc Hd.
  rewrite (do_reply c ctx cmd cl req reply Hs Hc Hd).
  split.
  - intros response ->. split.
    + intros ->. reflexivity.
    + intros Hne. apply Z.eqb_neq in Hne. now rewrite Hne.
  - intros err ->. reflexivity.
Qed.

(** ** The five operations *)

Lemma every_operation_impl (c : client) (ctx : context.Context)
  (Q Q' : forall A : Type, effect A -> Prop) :
  (forall A e, Q A e -> Q' A e) ->
  every_operation c ctx Q -> every_operation c ctx Q'.
Proof.
  intros H (H1 & H2 & H3 & H4 & H5).
  repeat split; intros; apply H; auto.
Qed.

Lemma dispatches_sent (c : client) (ctx : context.Context)
  (cmd : flaresolverrCommand) (A : Type) (e : effect A) :
  dispatches c ctx cmd A e -> sent e = sent (snd (do c ctx cmd)).
Proof.
  intros []; [reflexivity |].
  unfold error_only. destruct (ret _) as [[? ?] |]; reflexivity.
Qed.

Lemma apply_proxy_Cookies (cmd : flaresolverrCommand) (proxy : list string) :
  Cookies (apply_proxy cmd proxy) = Cookies cmd.
Proof.
  unfold apply_proxy. destruct (0 <? Z.of_nat (List.length proxy)); reflexivity.
Qed.

Lemma apply_proxy_ReturnOnlyCookies (cmd : flaresolverrCommand) (proxy : list string) :
  ReturnOnlyCookies (apply_proxy cmd proxy) = ReturnOnlyCookies cmd.
Proof.
  unfold apply_proxy. destruct (0 <? Z.of_nat (List.length proxy)); reflexivity.
Qed.

Lemma apply_proxy_PostData (cmd : flaresolverrCommand) (proxy : list string) :
  PostData (apply_proxy cmd proxy) = PostData cmd.
Proof.
  unfold apply_proxy. destruct (0 <? Z.of_nat (List.length proxy)); reflexivity.
Qed.

(** Each operation dispatches a command without cookies. *)
Lemma operations_dispatch (c : client) (ctx : context.Context) :
  every_operation c ctx (fun A e =>
    exists cmd, dispatches c ctx cmd A e
      /\ Cookies cmd = [] /\ ReturnOnlyCookies cmd = false).
Proof.
  unfold every_operation, CreateSession, ListSessions, DestroySession, Get, Post.
  cbv zeta.
  split; [| split; [| split; [| split]]]; intros;
    (eexists; split;
     [ first [apply dispatches_do | apply dispatches_error_only]
     | rewrite ?apply_proxy_Cookies, ?apply_proxy_ReturnOnlyCookies;
       split; reflexivity ]).
Qed.

Lemma every_operation_request (c : client) (ctx : context.Context)
  (P : http.Request -> Prop) :
  (forall cmd, Cookies cmd = [] -> ReturnOnlyCookies cmd = false ->
     every_request (snd (do c ctx cmd)) P) ->
  every_operation c ctx (fun A e => every_request e P).
Proof.
  intros H. apply (every_operation_impl c ctx _ _) with (2 := operations_dispatch c ctx).
  intros A e (cmd & Hd & Hc & Hr) req Hin.
  rewrite (dispatches_sent c ctx cmd A e Hd) in Hin.
  exact (H cmd Hc Hr req Hin).
Qed.

Lemma operations_send_one (c : client) (ctx : context.Context) :
  usable c -> every_operation c ctx (fun A e => sends_one e).
Proof.
  intros [Hu Hh].
  apply (every_operation_impl c ctx _ _) with (2 := operations_dispatch c ctx).
  intros A e (cmd & Hd & Hc & _). unfold sends_one.
  rewrite (dispatches_sent c ctx cmd A e Hd).
  apply do_sends_one; [| exact Hu | exact Hh].
  rewrite Hc. now exists [].
Qed.

Lemma do_carries_maxTimeout (c : client) (ctx : context.Context)
  (cmd : flaresolverrCommand) :
  every_request (snd (do c ctx cmd)) (carries_maxTimeout (wire_timeout c)).
Proof.
  intros req Hin. apply do_sent in Hin. destruct Hin as (payload & He & ->).
  exact (json_Encode_maxTimeout _ _ He).
Qed.

Lemma do_omits_cookies (c : client) (ctx : context.Context)
  (cmd : flaresolverrCommand) :
  Cookies cmd = [] -> ReturnOnlyCookies cmd = false ->
  every_request (snd (do c ctx cmd)) omits_cookies.
Proof.
  intros Hc Hr req Hin. apply do_sent in Hin. destruct Hin as (payload & He & ->).
  exact (json_Encode_no_cookies (set_MaxTimeout cmd (wire_timeout c)) _ Hc Hr He).
Qed.

(** C4.  [do] stores the configured timeout, in whole milliseconds as
    [int(c.timeout.Milliseconds())] computes them, in the field
    [MaxTimeout] of the command, whatever the field held, and changes
    nothing else of the command; the member [maxTimeout] of every request
    it sends is that number.  The same holds of every request sent by each
    of the five operations, and a usable client does send one. *)
Theorem MaxTimeout_is_configured_timeout (c : client) (ctx : context.Context) :
  wire_timeout c = GoInt.int (time.Milliseconds (timeout c))
  /\ (GoInt.is_int64 (timeout c) -> wire_timeout c = Z.quot (timeout c) 1000000)
  /\ (forall cmd : flaresolverrCommand,
        fst (do c ctx cmd) = set_MaxTimeout cmd (wire_timeout c)
        /\ MaxTimeout (fst (do c ctx cmd)) = wire_timeout c
        /\ every_request (snd (do c ctx cmd)) (carries_maxTimeout (wire_timeout c)))
  /\ every_operation c ctx
       (fun A e => every_request e (carries_maxTimeout (wire_timeout c)))
  /\ (usable c -> every_operation c ctx (fun A e => sends_one e)).
Proof.
  split; [reflexivity |].
  split; [apply int_Milliseconds |].
  split.
  - intros cmd. rewrite do_command. repeat split. apply do_carries_maxTimeout.
  - split; [| apply operations_send_one].
    apply every_operation_request. intros cmd _ _. apply do_carries_maxTimeout.
Qed.

(** C6, as the code has it.  The command [Post] dispatches has the
    body it was given in the field [PostData], before and after [do] has
    run.  On the wire the member [postData] is absent when the body is
    empty and otherwise holds the body as the JSON encoder writes it: the
    body itself when it is valid UTF-8, and with U+FFFD in place of every
    byte that belongs to no valid sequence when it is not. *)
Theorem Post_body_verbatim (c : client) (ctx : context.Context) (u : string)
  (session : uuid.UUID) (data : string) (proxy : list string) :
  (exists cmd : flaresolverrCommand,
     Post c ctx u session data proxy = snd (do c ctx cmd)
     /\ Cmd cmd = CommandRequestpost
     /\ PostData cmd = data
     /\ PostData (fst (do c ctx cmd)) = data)
  /\ every_request (Post c ctx u session data proxy)
       (fun req =>
          json.get "postData" (http.Payload req) =
          if String.eqb data "" then None
          else Some (json.Str (json.coerce data)))
  /\ (utf8.ValidString data = true ->
      every_request (Post c ctx u session data proxy)
        (fun req =>
           json.get "postData" (http.Payload req) =
           if String.eqb data "" then None else Some (json.Str data)))
  /\ (usable c -> sends_one (Post c ctx u session data proxy)).
Proof.
  assert (every_request (Post c ctx u session data proxy)
            (fun req =>
               json.get "postData" (http.Payload req) =
               if String.eqb data "" then None
               else Some (json.Str (json.coerce data)))) as Hwire.
  { intros req Hin. unfold Post in Hin. cbv zeta in Hin.
    apply do_sent in Hin. destruct Hin as (payload & He & ->).
    apply json_Encode_postData in He.
    + simpl in He. rewrite apply_proxy_PostData in He. exact He.
    + simpl. now rewrite apply_proxy_Cookies.
    + simpl. now rewrite apply_proxy_ReturnOnlyCookies. }
  split; [| split; [exact Hwire | split]].
  - eexists. split; [reflexivity |].
    rewrite do_command. simpl. rewrite apply_proxy_PostData.
    unfold apply_proxy. destruct (0 <? Z.of_nat (List.length proxy)); repeat split.
  - intros Hv req Hin. rewrite (Hwire req Hin). now rewrite (coerce_valid data Hv).
  - intros Hu. apply (operations_send_one c ctx Hu).
Qed.

(** C7.  The command each of the five operations dispatches has no
    cookies and [ReturnOnlyCookies] false, and [do] leaves both so; the body
    of every request they send has neither a member [cookies] nor a member
    [returnOnlyCookies]; and a usable client does send a request. *)
Theorem operations_never_send_cookies (c : client) (ctx : context.Context) :
  every_operation c ctx (fun A e =>
    exists cmd : flaresolverrCommand,
      dispatches c ctx cmd A e
      /\ Cookies cmd = [] /\ ReturnOnlyCookies cmd = false
      /\ Cookies (fst (do c ctx cmd)) = []
      /\ ReturnOnlyCookies (fst (do c ctx cmd)) = false)
  /\ every_operation c ctx (fun A e => every_request e omits_cookies)
  /\ (usable c -> every_operation c ctx (fun A e => sends_one e)).
Proof.
  split; [| split].
  - apply (every_operation_impl c ctx _ _) with (2 := operations_dispatch c ctx).
    intros A e (cmd & Hd & Hc & Hr). exists cmd.
    rewrite do_command. simpl. auto.
  - apply every_operation_request. intros cmd Hc Hr. now apply do_omits_cookies.
  - apply operations_send_one.
Qed.


(** C10, as the code has it.  A negative timeout is kept by [New] (only
    zero is replaced by the default), and the [MaxTimeout] that goes on the
    wire is its whole milliseconds rounded toward zero: never positive,
    negative exactly when the timeout is a millisecond or more below zero,
    and zero for a negative timeout shorter than a millisecond. *)
Theorem negative_timeout_preserved (base : string) (t : time.Duration)
  (h : option http.ClientRef) (ctx : context.Context) :
  t < 0 -> GoInt.is_int64 t ->
  timeout (New base t h) = t
  /\ (forall t' : time.Duration, t' <> 0 -> timeout (New base t' h) = t')
  /\ wire_timeout (New base t h) = Z.quot t 1000000
  /\ wire_timeout (New base t h) <= 0
  /\ (wire_timeout (New base t h) < 0 <-> t <= -1000000)
  /\ (forall cmd : flaresolverrCommand,
        MaxTimeout (fst (do (New base t h) ctx cmd)) = Z.quot t 1000000)
  /\ every_operation (New base t h) ctx
       (fun A e => every_request e (carries_maxTimeout (Z.quot t 1000000)))
  /\ (usable (New base t h) ->
      every_operation (New base t h) ctx (fun A e => sends_one e)).
Proof.
  intros Hneg Hrange.
  assert (forall t' : time.Duration, t' <> 0 -> timeout (New base t' h) = t') as Hkeep.
  { intros t' Ht'. unfold New; simpl.
    destruct (t' =? 0) eqn:E; [| reflexivity].
    apply Z.eqb_eq in E. contradiction. }
  assert (timeout (New base t h) = t) as Ht by (apply Hkeep; lia).
  assert (wire_timeout (New base t h) = Z.quot t 1000000) as Hw.
  { unfold wire_timeout. rewrite Ht. now apply int_Milliseconds. }
  split; [exact Ht |].
  split; [exact Hkeep |].
  split; [exact Hw |].
  split; [rewrite Hw; Z.to_euclidean_division_equations; lia |].
  split; [rewrite Hw; Z.to_euclidean_division_equations; lia |].
  split; [intros cmd; rewrite do_command; exact Hw |].
  split; [| apply operations_send_one].
  rewrite <- Hw.
  apply every_operation_request. intros cmd _ _. apply do_carries_maxTimeout.
Qed.

(** ** Further properties: the body of the requests *)

Lemma do_sent_payload (c : client) (ctx : context.Context)
  (cmd : flaresolverrCommand) (req : http.Request) :
  In req (sent (snd (do c ctx cmd))) ->
  json_Encode (set_MaxTimeout cmd (wire_timeout c)) = inl (http.Payload req).
Proof.
  intros Hin. apply do_sent in Hin. destruct Hin as (payload & He & ->).
  exact He.
Qed.

Lemma error_only_sent (r : effect (option Response * option error)) :
  sent (error_only r) = sent r.
Proof. unfold error_only. destruct (ret r) as [[? ?] |]; reflexivity. Qed.

(** From a request of one of the operations to the encoding of the
    command the operation built. *)
Ltac operation_payload H :=
  unfold CreateSession, ListSessions, DestroySession, Get, Post in H;
  cbv zeta in H; rewrite ?error_only_sent in H;
  apply do_sent_payload in H.

Lemma json_Encode_url (cmd : flaresolverrCommand) (payload : json.value) :
  json_Encode cmd = inl payload ->
  json.get "url" payload = Some (json.Str (json.coerce (URL cmd))).
Proof.
  unfold json_Encode. destruct (json.encodeElems (Cookies cmd)); [| discriminate].
  intros H. injection H as <-. reflexivity.
Qed.

Lemma json_Encode_session (cmd : flaresolverrCommand) (payload : json.value) :
  json_Encode cmd = inl payload ->
  json.get "session" payload = wire_string (Session cmd).
Proof.
  unfold json_Encode. destruct (json.encodeElems (Cookies cmd)); [| discriminate].
  intros H. injection H as <-.
  unfold json.member_omitempty, wire_string.
  destruct (String.eqb (Session cmd) ""), (Nat.eqb (List.length (Cookies cmd)) 0),
    (ReturnOnlyCookies cmd), (String.eqb (Proxy cmd) ""),
    (String.eqb (PostData cmd) ""); reflexivity.
Qed.

Lemma json_Encode_proxy (cmd : flaresolverrCommand) (payload : json.value) :
  json_Encode cmd = inl payload ->
  json.get "proxy" payload = wire_string (Proxy cmd).
Proof.
  unfold json_Encode. destruct (json.encodeElems (Cookies cmd)); [| discriminate].
  intros H. injection H as <-.
  unfold json.member_omitempty, wire_string.
  destruct (String.eqb (Session cmd) ""), (Nat.eqb (List.length (Cookies cmd)) 0),
    (ReturnOnlyCookies cmd), (String.eqb (Proxy cmd) ""),
    (String.eqb (PostData cmd) ""); reflexivity.
Qed.

Lemma json_Encode_postData_any (cmd : flaresolverrCommand) (payload : json.value) :
  json_Encode cmd = inl payload ->
  json.get "postData" payload = wire_string (PostData cmd).
Proof.
  unfold json_Encode. destruct (json.encodeElems (Cookies cmd)); [| discriminate].
  intros H. injection H as <-.
  unfold json.member_omitempty, wire_string.
  destruct (String.eqb (Session cmd) ""), (Nat.eqb (List.length (Cookies cmd)) 0),
    (ReturnOnlyCookies cmd), (String.eqb (Proxy cmd) ""),
    (String.eqb (PostData cmd) ""); reflexivity.
Qed.

Lemma apply_proxy_Session (cmd : flaresolverrCommand) (proxy : list string) :
  Session (apply_proxy cmd proxy) = Session cmd.
Proof.
  unfold apply_proxy. destruct (0 <? Z.of_nat (List.length proxy)); reflexivity.
Qed.

Lemma apply_proxy_URL (cmd : flaresolverrCommand) (proxy : list string) :
  URL (apply_proxy cmd proxy) = URL cmd.
Proof.
  unfold apply_proxy. destruct (0 <? Z.of_nat (List.length proxy)); reflexivity.
Qed.

Lemma apply_proxy_Proxy (cmd : flaresolverrCommand) (proxy : list string) :
  Proxy cmd = ""%string -> Proxy (apply_proxy cmd proxy) = nth 0 proxy ""%string.
Proof.
  intros H. unfold apply_proxy. destruct proxy as [| p rest]; simpl; [exact H |].
  destruct (0 <? Z.pos (Pos.of_succ_nat (List.length rest))) eqn:E; [reflexivity |].
  apply Z.ltb_ge in E. lia.
Qed.

Lemma apply_proxy_first (cmd : flaresolverrCommand) (p : string)
  (rest : list string) :
  apply_proxy cmd (p :: rest) = apply_proxy cmd [p].
Proof.
  unfold apply_proxy.
  replace (0 <? Z.of_nat (List.length (p :: rest))) with true
    by (symmetry; apply Z.ltb_lt; simpl; lia).
  reflexivity.
Qed.

Lemma high_digit_ASCII (v : byte) :
  strings.byte_lt_RuneSelf (high_digit v) = true.
Proof. destruct v; reflexivity. Qed.

Lemma low_digit_ASCII (v : byte) :
  strings.byte_lt_RuneSelf (low_digit v) = true.
Proof. destruct v; reflexivity. Qed.

Lemma uuid_String_ASCII (u : uuid.UUID) :
  uuid.wf u -> strings.isASCII (uuid.String u) = true.
Proof.
  intros H. destruct (wf_sixteen u H) as (b0&b1&b2&b3&b4&b5&b6&b7&b8&b9&b10&b11&b12&b13&b14&b15&->).
  rewrite uuid_String_digits.
  cbn -[high_digit low_digit strings.byte_lt_RuneSelf].
  rewrite !high_digit_ASCII, !low_digit_ASCII. reflexivity.
Qed.

Lemma wire_string_handleSession (session : uuid.UUID) :
  uuid.wf session ->
  wire_string (handleSession session) = session_member session.
Proof.
  intros Hwf. unfold wire_string, session_member, handleSession.
  destruct (uuid.eqb session uuid.Nil); [reflexivity |].
  rewrite (coerce_ASCII _ (uuid_String_ASCII session Hwf)).
  destruct (String.eqb (uuid.String session) "") eqn:E; [| reflexivity].
  apply String.eqb_eq in E.
  pose proof (uuid_String_length session Hwf) as Hl.
  rewrite E in Hl. discriminate Hl.
Qed.

(** X1.  On the wire, the member [session] of a request of
    [CreateSession], [DestroySession], [Get] or [Post] is absent when the
    identifier is the zero one and is the 36-byte string of the identifier
    otherwise; a request of [ListSessions] never has the member. *)
Theorem session_member_on_the_wire (c : client) (ctx : context.Context)
  (session : uuid.UUID) :
  uuid.wf session ->
  (forall proxy, every_request (CreateSession c ctx session proxy)
                   (has_member "session" (session_member session)))
  /\ every_request (DestroySession c ctx session)
       (has_member "session" (session_member session))
  /\ (forall u proxy, every_request (Get c ctx u session proxy)
                        (has_member "session" (session_member session)))
  /\ (forall u data proxy, every_request (Post c ctx u session data proxy)
                             (has_member "session" (session_member session)))
  /\ every_request (ListSessions c ctx) (has_member "session" None).
Proof.
  intros Hwf. rewrite <- (wire_string_handleSession session Hwf).
  repeat split; intros; intros req Hin; operation_payload Hin;
    apply json_Encode_session in Hin; simpl in Hin;
    rewrite ?apply_proxy_Session in Hin; exact Hin.
Qed.

(** X2.  Of the proxies given to [CreateSession], [Get] or [Post] only
    the first counts: the call with a longer list is the call with its first
    element alone, and the call with no proxy is the call with the empty
    string.  The member [proxy] of the request is absent when there is no
    first string or it is empty, and otherwise holds that string as the
    JSON encoder writes it, which is the string itself when it is valid
    UTF-8; [ListSessions] and [DestroySession] never send the member. *)
Theorem proxy_first_only (c : client) (ctx : context.Context) :
  (forall session p rest,
     CreateSession c ctx session (p :: rest) = CreateSession c ctx session [p]
     /\ CreateSession c ctx session [] = CreateSession c ctx session [""%string])
  /\ (forall u session p rest,
        Get c ctx u session (p :: rest) = Get c ctx u session [p]
        /\ Get c ctx u session [] = Get c ctx u session [""%string])
  /\ (forall u session data p rest,
        Post c ctx u session data (p :: rest) = Post c ctx u session data [p]
        /\ Post c ctx u session data [] = Post c ctx u session data [""%string])
  /\ (forall session proxy,
        every_request (CreateSession c ctx session proxy)
          (has_member "proxy" (wire_string (nth 0 proxy ""%string))))
  /\ (forall u session proxy,
        every_request (Get c ctx u session proxy)
          (has_member "proxy" (wire_string (nth 0 proxy ""%string))))
  /\ (forall u session data proxy,
        every_request (Post c ctx u session data proxy)
          (has_member "proxy" (wire_string (nth 0 proxy ""%string))))
  /\ (forall p : string,
        utf8.ValidString p = true ->
        wire_string p = if String.eqb p "" then None else Some (json.Str p))
  /\ every_request (ListSessions c ctx) (has_member "proxy" None)
  /\ (forall session,
        every_request (DestroySession c ctx session) (has_member "proxy" None)).
Proof.
  split; [| split; [| split; [| split; [| split; [| split; [| split; [| split]]]]]]].
  - intros. split; [| reflexivity].
    unfold CreateSession. cbv zeta. now rewrite apply_proxy_first.
  - intros. split; [| reflexivity].
    unfold Get. cbv zeta. now rewrite apply_proxy_first.
  - intros. split; [| reflexivity].
    unfold Post. cbv zeta. now rewrite apply_proxy_first.
  - intros session proxy req Hin. operation_payload Hin.
    apply json_Encode_proxy in Hin. simpl in Hin.
    rewrite apply_proxy_Proxy in Hin by reflexivity. exact Hin.
  - intros u session proxy req Hin. operation_payload Hin.
    apply json_Encode_proxy in Hin. simpl in Hin.
    rewrite apply_proxy_Proxy in Hin by reflexivity. exact Hin.
  - intros u session data proxy req Hin. operation_payload Hin.
    apply json_Encode_proxy in Hin. simpl in Hin.
    rewrite apply_proxy_Proxy in Hin by reflexivity. exact Hin.
  - intros p Hv. unfold wire_string. now rewrite (coerce_valid p Hv).
  - intros req Hin. operation_payload Hin.
    apply json_Encode_proxy in Hin. exact Hin.
  - intros session req Hin. operation_payload Hin.
    apply json_Encode_proxy in Hin. exact Hin.
Qed.

(** X3.  A call of any of the five operations hands at most one request
    to the HTTP client, and such a request is a POST to the base URL of the
    client whose header is the single entry Content-Type:
    application/json. *)
Theorem operations_post_once (c : client) (ctx : context.Context) :
  every_operation c ctx (fun A e =>
    (List.length (sent e) <= 1)%nat
    /\ every_request e (fun req =>
         http.Method req = "POST"%string
         /\ http.URL req = baseURL c
         /\ http.Header req = [("Content-Type", "application/json")%string])).
Proof.
  apply (every_operation_impl c ctx _ _) with (2 := operations_dispatch c ctx).
  intros A e (cmd & Hd & _). rewrite (dispatches_sent c ctx cmd A e Hd).
  split.
  - destruct (sent (snd (do c ctx cmd))) as [| r1 [| r2 rest]] eqn:E;
      [simpl; lia | simpl; lia |].
    exfalso. unfold do in E.
    destruct (json_Encode _); [| discriminate E].
    destruct (http.NewRequestWithContext _ _ _ _ _); [| discriminate E].
    destruct (httpClient c); [| discriminate E].
    destruct (http_Do _ _); [destruct (json_Decode _); [destruct (negb _) |] |];
      discriminate E.
  - intros req Hin. rewrite (dispatches_sent c ctx cmd A e Hd) in Hin.
    apply do_sent in Hin. destruct Hin as (payload & _ & ->).
    repeat split.
Qed.

(** X4.  The member [url] is always sent, also when empty: it is the
    empty string in the requests of the three session operations and, in
    those of [Get] and [Post], the URL given as the JSON encoder writes it,
    which is the URL itself when it is valid UTF-8.  The member [postData]
    is never sent by an operation other than [Post]. *)
Theorem url_always_postData_only_Post (c : client) (ctx : context.Context) :
  (forall session proxy,
     every_request (CreateSession c ctx session proxy) (fun req =>
       has_member "url" (Some (json.Str "")) req /\ has_member "postData" None req))
  /\ every_request (ListSessions c ctx) (fun req =>
       has_member "url" (Some (json.Str "")) req /\ has_member "postData" None req)
  /\ (forall session,
        every_request (DestroySession c ctx session) (fun req =>
          has_member "url" (Some (json.Str "")) req /\ has_member "postData" None req))
  /\ (forall u session proxy,
        every_request (Get c ctx u session proxy) (fun req =>
          has_member "url" (Some (json.Str (json.coerce u))) req
          /\ (utf8.ValidString u = true -> has_member "url" (Some (json.Str u)) req)
          /\ has_member "postData" None req))
  /\ (forall u session data proxy,
        every_request (Post c ctx u session data proxy) (fun req =>
          has_member "url" (Some (json.Str (json.coerce u))) req
          /\ (utf8.ValidString u = true -> has_member "url" (Some (json.Str u)) req))).
Proof.
  split; [| split; [| split; [| split]]]; intros; intros req Hin;
    operation_payload Hin;
    pose proof (json_Encode_url _ _ Hin) as Hu;
    pose proof (json_Encode_postData_any _ _ Hin) as Hp;
    simpl in Hu, Hp;
    rewrite ?apply_proxy_URL in Hu; rewrite ?apply_proxy_PostData in Hp;
    cbn [URL PostData] in Hu, Hp.
  - split; [exact Hu | exact Hp].
  - split; [exact Hu | exact Hp].
  - split; [exact Hu | exact Hp].
  - split; [exact Hu | split; [| exact Hp]].
    intros Hv. unfold has_member. now rewrite Hu, (coerce_valid u Hv).
  - split; [exact Hu |].
    intros Hv. unfold has_member. now rewrite Hu, (coerce_valid u Hv).
Qed.

Lemma json_Encode_keys (cmd : flaresolverrCommand) (payload : json.value) :
  json_Encode cmd = inl payload ->
  subsequence (keys payload) field_names = true
  /\ NoDup (keys payload)
  /\ In "cmd"%string (keys payload)
  /\ In "url"%string (keys payload)
  /\ In "maxTimeout"%string (keys payload).
Proof.
  unfold json_Encode. destruct (json.encodeElems (Cookies cmd)); [| discriminate].
  intros H. injection H as <-.
  unfold json.member_omitempty, json.member.
  destruct (String.eqb (Session cmd) ""), (Nat.eqb (List.length (Cookies cmd)) 0),
    (negb (ReturnOnlyCookies cmd)), (String.eqb (Proxy cmd) ""),
    (String.eqb (PostData cmd) "");
    (split; [reflexivity |]);
    (split; [repeat constructor; simpl; intuition discriminate |]);
    simpl; auto 10.
Qed.

(** X5.  The members of the body of every request [do] sends come in
    the order of the fields of the struct, no name twice, and [cmd], [url]
    and [maxTimeout] are always among them; so it is for the requests of
    the five operations. *)
Theorem wire_members_in_struct_order (c : client) (ctx : context.Context) :
  (forall cmd : flaresolverrCommand,
     every_request (snd (do c ctx cmd)) (fun req =>
       subsequence (keys (http.Payload req)) field_names = true
       /\ NoDup (keys (http.Payload req))
       /\ In "cmd"%string (keys (http.Payload req))
       /\ In "url"%string (keys (http.Payload req))
       /\ In "maxTimeout"%string (keys (http.Payload req))))
  /\ every_operation c ctx (fun A e =>
       every_request e (fun req =>
         subsequence (keys (http.Payload req)) field_names = true
         /\ NoDup (keys (http.Payload req))
         /\ In "cmd"%string (keys (http.Payload req))
         /\ In "url"%string (keys (http.Payload req))
         /\ In "maxTimeout"%string (keys (http.Payload req)))).
Proof.
  assert (forall cmd : flaresolverrCommand,
            every_request (snd (do c ctx cmd)) (fun req =>
              subsequence (keys (http.Payload req)) field_names = true
              /\ NoDup (keys (http.Payload req))
              /\ In "cmd"%string (keys (http.Payload req))
              /\ In "url"%string (keys (http.Payload req))
              /\ In "maxTimeout"%string (keys (http.Payload req)))) as Hdo.
  { intros cmd req Hin. apply do_sent_payload in Hin.
    exact (json_Encode_keys _ _ Hin). }
  split; [exact Hdo |].
  apply every_operation_request. intros cmd _ _. apply Hdo.
Qed.

(** ** Further properties: returning, failing, panicking *)

Lemma dispatches_ret (c : client) (ctx : context.Context)
  (cmd : flaresolverrCommand) (A : Type) (e : effect A) :
  dispatches c ctx cmd A e ->
  ((exists a, ret e = returns a) <->
   (exists b, ret (snd (do c ctx cmd)) = returns b))
  /\ (ret e = panics <-> ret (snd (do c ctx cmd)) = panics).
Proof.
  intros []; [split; reflexivity |].
  unfold error_only. destruct (ret (snd (do c ctx cmd))) as [[resp err] |]; simpl.
  - split; split; try discriminate; intros _; eexists; reflexivity.
  - split; split; try reflexivity; intros [? H]; discriminate H.
Qed.

Lemma do_nil_client_panics (c : client) (ctx : context.Context)
  (cmd : flaresolverrCommand) :
  Cookies cmd = [] -> url_Parse_error (baseURL c) = None ->
  httpClient c = None ->
  ret (snd (do c ctx cmd)) = panics /\ sent (snd (do c ctx cmd)) = [].
Proof.
  intros Hc Hu Hh. unfold do, json_Encode. simpl. rewrite Hc. simpl.
  unfold http.NewRequestWithContext. rewrite Hu, Hh. split; reflexivity.
Qed.

(** X6.  On a [client] value whose HTTP client is nil and whose base
    URL parses, every operation panics, at the call of [Do] on the nil
    client, and nothing has been sent. *)
Theorem nil_client_panics (base : string) (t : time.Duration)
  (ctx : context.Context) :
  url_Parse_error base = None ->
  every_operation (mkClient base None t) ctx (fun A e =>
    ret e = panics /\ sent e = []).
Proof.
  intros Hu.
  apply (every_operation_impl _ ctx _ _) with (2 := operations_dispatch _ ctx).
  intros A e (cmd & Hd & Hc & _).
  destruct (do_nil_client_panics (mkClient base None t) ctx cmd Hc Hu eq_refl)
    as [Hr Hs].
  split.
  - now apply (dispatches_ret _ ctx cmd A e Hd).
  - now rewrite (dispatches_sent _ ctx cmd A e Hd).
Qed.

Lemma Is_wrapped_sentinel (msg : string) (cause target : error) :
  target = ErrRequestTimeout \/ target = ErrUnexpectedError ->
  Is (wrapError msg cause) target = Is cause target.
Proof. intros [-> | ->]; reflexivity. Qed.

(** X7.  When the exchange itself fails, [do] returns no [Response]
    and an error that wraps the cause under the text "error making request
    to flaresolverr: ".  Seen through [errors.Is], that error is one of the
    two sentinels exactly when the cause is: a local failure, the local
    deadline passing included, is not reported as [ErrRequestTimeout]. *)
Theorem do_transport_failure (c : client) (ctx : context.Context)
  (cmd : flaresolverrCommand) (cl : http.ClientRef) (req : http.Request)
  (cause : error) :
  sent (snd (do c ctx cmd)) = [req] ->
  httpClient c = Some cl ->
  http_Do cl req = inr cause ->
  exists err : error,
    ret (snd (do c ctx cmd)) = returns (None, Some err)
    /\ Error err = ("error making request to flaresolverr: " ++ Error cause)%string
    /\ Unwrap err = Some cause
    /\ Is err ErrRequestTimeout = Is cause ErrRequestTimeout
    /\ Is err ErrUnexpectedError = Is cause ErrUnexpectedError.
Proof.
  unfold do.
  destruct (json_Encode _); [| discriminate].
  destruct (http.NewRequestWithContext _ _ _ _ _) as [rq |]; [| discriminate].
  intros Hs Hc. rewrite Hc in *.
  assert (http.Header_Set rq "Content-Type" "application/json" = req) as ->.
  { destruct (http_Do cl _); [destruct (json_Decode _); [destruct (negb _) |] |];
      simpl in Hs; congruence. }
  intros ->. eexists. split; [reflexivity |].
  repeat split.
Qed.

(** X8.  With a base URL that does not parse, [do] hands nothing to the
    HTTP client, nil or not, and returns no [Response] and an error that
    wraps the parse error under the text "cannot make request: "; every
    operation on such a client sends nothing and returns. *)
Theorem do_unparsable_base_URL (c : client) (ctx : context.Context)
  (cause : error) :
  url_Parse_error (baseURL c) = Some cause ->
  (forall cmd : flaresolverrCommand,
     (exists cookies, json.encodeElems (Cookies cmd) = inl cookies) ->
     sent (snd (do c ctx cmd)) = []
     /\ ret (snd (do c ctx cmd)) =
        returns (None, Some (wrapError ("cannot make request: " ++ Error cause) cause)))
  /\ every_operation c ctx (fun A e =>
       sent e = [] /\ exists a, ret e = returns a).
Proof.
  intros Hu.
  assert (forall cmd : flaresolverrCommand,
            (exists cookies, json.encodeElems (Cookies cmd) = inl cookies) ->
            sent (snd (do c ctx cmd)) = []
            /\ ret (snd (do c ctx cmd)) =
               returns (None, Some (wrapError ("cannot make request: " ++ Error cause) cause)))
    as Hdo.
  { intros cmd [cookies Hc]. unfold do, json_Encode. simpl. rewrite Hc.
    unfold http.NewRequestWithContext. rewrite Hu. split; reflexivity. }
  split; [exact Hdo |].
  apply (every_operation_impl c ctx _ _) with (2 := operations_dispatch c ctx).
  intros A e (cmd & Hd & Hc & _).
  destruct (Hdo cmd) as [Hs Hr]; [rewrite Hc; now exists [] |].
  split.
  - now rewrite (dispatches_sent c ctx cmd A e Hd).
  - apply (dispatches_ret c ctx cmd A e Hd). eexists. exact Hr.
Qed.

(** X9.  [do] sends a request exactly when the command encodes, the
    base URL parses and the HTTP client is not nil; otherwise it sends
    nothing.  A command that does not encode is reported first, under the
    text "invalid command: ", whatever the base URL and the HTTP client
    are. *)
Theorem do_sends_exactly_when (c : client) (ctx : context.Context)
  (cmd : flaresolverrCommand) :
  (sends_one (snd (do c ctx cmd)) <->
   (exists cookies, json.encodeElems (Cookies cmd) = inl cookies)
   /\ url_Parse_error (baseURL c) = None
   /\ httpClient c <> None)
  /\ (~ sends_one (snd (do c ctx cmd)) -> sent (snd (do c ctx cmd)) = [])
  /\ (forall cause,
        json.encodeElems (Cookies cmd) = inr cause ->
        sent (snd (do c ctx cmd)) = []
        /\ ret (snd (do c ctx cmd)) =
           returns (None, Some (wrapError ("invalid command: " ++ Error cause) cause))).
Proof.
  split; [| split].
  - split.
    + intros [req Hs]. unfold do, json_Encode in Hs. simpl in Hs.
      destruct (json.encodeElems (Cookies cmd)) as [cookies |]; [| discriminate Hs].
      unfold http.NewRequestWithContext in Hs.
      destruct (url_Parse_error (baseURL c)); [discriminate Hs |].
      destruct (httpClient c); [| discriminate Hs].
      repeat split; [now exists cookies | discriminate].
    + intros (Hc & Hu & Hh). now apply do_sends_one.
  - intros Hn. destruct (sent (snd (do c ctx cmd))) as [| r rest] eqn:E; [reflexivity |].
    exfalso. apply Hn. unfold sends_one. rewrite E.
    assert (rest = []) as ->; [| now exists r].
    unfold do in E.
    destruct (json_Encode _); [| discriminate E].
    destruct (http.NewRequestWithContext _ _ _ _ _); [| discriminate E].
    destruct (httpClient c); [| discriminate E].
    destruct (http_Do _ _); [destruct (json_Decode _); [destruct (negb _) |] |];
      simpl in E; congruence.
  - intros cause Hc. unfold do, json_Encode. simpl. rewrite Hc. split; reflexivity.
Qed.

(** X10.  [DestroySession] succeeds or fails by the HTTP status alone:
    when the reply decodes, status 200 gives a nil error, whatever the
    decoded [Response] says, and any other status gives the error the
    classifier makes of its message. *)
Theorem DestroySession_by_status (c : client) (ctx : context.Context)
  (session : uuid.UUID) (cl : http.ClientRef) (req : http.Request)
  (reply : http.Response) (response : Response) :
  sent (DestroySession c ctx session) = [req] ->
  httpClient c = Some cl ->
  http_Do cl req = inl reply ->
  json_Decode (http.Body reply) = inl response ->
  ret (DestroySession c ctx session) =
  returns (if http.StatusCode reply =? 200 then None
           else Some (handleError response)).
Proof.
  unfold DestroySession. cbv zeta. rewrite error_only_sent.
  intros Hs Hc Hd Hj. unfold error_only.
  rewrite (do_reply c ctx _ cl req reply Hs Hc Hd), Hj.
  destruct (http.StatusCode reply =? 200); reflexivity.
Qed.

(** ** Further properties: the classifier and the identifiers *)

Lemma append_cancel_l (p a b : string) :
  (p ++ a)%string = (p ++ b)%string -> a = b.
Proof.
  induction p as [| x p IH]; simpl; intros H; [exact H |].
  injection H as H. now apply IH.
Qed.

Lemma handleError_cases (resp : Response) :
  handleError resp = ErrRequestTimeout
  \/ handleError resp =
     wrapError ("unexpected error from FlareSolverr server: " ++ Message resp)
       ErrUnexpectedError.
Proof.
  destruct (strings.Contains (strings.ToLower MapUnicodeToLower (Message resp))
              timeout_message) eqn:E.
  - left. now apply handleError_timeout.
  - right. now apply handleError_unexpected.
Qed.

(** X11.  The error of the classifier matches, under [errors.Is],
    exactly one of the two sentinels.  It is never the UnexpectedError
    sentinel itself, which only ever comes wrapped, while a match of
    RequestTimeout is the sentinel itself. *)
Theorem handleError_exactly_one_sentinel (resp : Response) :
  Is (handleError resp) ErrRequestTimeout =
  negb (Is (handleError resp) ErrUnexpectedError)
  /\ handleError resp <> ErrUnexpectedError
  /\ (Is (handleError resp) ErrRequestTimeout = true <->
      handleError resp = ErrRequestTimeout).
Proof.
  destruct (handleError_cases resp) as [-> | ->].
  - repeat split; discriminate.
  - repeat split; discriminate.
Qed.

(** X12.  Two replies classified to the same error that is not the
    RequestTimeout sentinel have the same message: the message can be read
    back from an UnexpectedError. *)
Theorem handleError_keeps_messages_apart (r1 r2 : Response) :
  handleError r1 = handleError r2 ->
  handleError r1 <> ErrRequestTimeout ->
  Message r1 = Message r2.
Proof.
  intros Heq Hne.
  destruct (handleError_cases r1) as [H1 | H1]; [contradiction |].
  destruct (handleError_cases r2) as [H2 | H2]; [congruence |].
  rewrite H1, H2 in Heq.
  assert (forall m e m' e', wrapError m e = wrapError m' e' -> m = m') as Hmsg
    by (intros m e m' e' H; now injection H).
  apply Hmsg in Heq. exact (append_cancel_l _ _ _ Heq).
Qed.

(** X13.  On messages of ASCII bytes the classifier does not see the
    case of letters: two messages with the same lower-case form are both
    timeouts or both not. *)
Theorem handleError_ascii_case_blind (r1 r2 : Response) :
  strings.isASCII (Message r1) = true ->
  strings.isASCII (Message r2) = true ->
  strings.lowerASCII (Message r1) = strings.lowerASCII (Message r2) ->
  (handleError r1 = ErrRequestTimeout <-> handleError r2 = ErrRequestTimeout).
Proof.
  intros A1 A2 Hl. unfold handleError.
  rewrite (ToLower_ASCII _ A1), (ToLower_ASCII _ A2), Hl.
  destruct (strings.Contains (strings.lowerASCII (Message r2))
              "maximum timeout reached"); split; intros H;
    first [reflexivity | discriminate H].
Qed.

(** X14.  [handleSession] is injective on identifiers: two identifiers
    with the same string are the same identifier (the zero identifier is the
    only one with the empty string). *)
Theorem handleSession_injective (u v : uuid.UUID) :
  uuid.wf u -> uuid.wf v -> handleSession u = handleSession v -> u = v.
Proof.
  intros Hu Hv H.
  assert (forall w, uuid.wf w -> uuid.String w <> ""%string) as Hne.
  { intros w Hw E. pose proof (uuid_String_length w Hw) as Hl.
    rewrite E in Hl. discriminate Hl. }
  unfold handleSession in H.
  destruct (uuid.eqb u uuid.Nil) eqn:Eu, (uuid.eqb v uuid.Nil) eqn:Ev.
  - apply uuid_eqb_eq in Eu. apply uuid_eqb_eq in Ev. congruence.
  - symmetry in H. now apply Hne in H.
  - now apply Hne in H.
  - now apply uuid_String_injective.
Qed.

(** ** Further properties: timeouts and deadlines *)

(** X15.  For a timeout that is not negative (and leaves room for the
    ten seconds), in every request of [do] and of every operation: the
    member [maxTimeout] is a number [v] of whole milliseconds that is not
    above the timeout and less than a millisecond below it, so a timeout
    under a millisecond goes out as 0; and, when the caller gave no
    deadline, the deadline of the request is at least ten seconds later than
    [v] milliseconds after the call. *)
Theorem wire_timeout_within_deadline (c : client) (ctx : context.Context) :
  0 <= timeout c ->
  GoInt.is_int64 (timeout c + 10000000000) ->
  (forall cmd : flaresolverrCommand,
     every_request (snd (do c ctx cmd)) (truncated_within_deadline c ctx))
  /\ every_operation c ctx (fun A e =>
       every_request e (truncated_within_deadline c ctx)).
Proof.
  intros Hpos Hfit.
  assert (GoInt.is_int64 (timeout c)) as Hrange.
  { revert Hfit. unfold GoInt.is_int64, GoInt.MinInt64, GoInt.MaxInt64.
    change (2 ^ 63) with 9223372036854775808. lia. }
  assert (forall cmd : flaresolverrCommand,
            every_request (snd (do c ctx cmd)) (truncated_within_deadline c ctx))
    as Hdo.
  { intros cmd req Hin. apply do_sent in Hin. destruct Hin as (payload & He & ->).
    exists (wire_timeout c). split; [exact (json_Encode_maxTimeout _ _ He) |].
    cbn [http.Context]. unfold request_context.
    rewrite (add_ten_seconds _ Hfit).
    unfold wire_timeout. rewrite (int_Milliseconds _ Hrange).
    change time.Millisecond with 1000000.
    change (10 * time.Second) with 10000000000.
    split; [Z.to_euclidean_division_equations; lia |].
    split; [Z.to_euclidean_division_equations; lia |].
    split; [Z.to_euclidean_division_equations; lia |].
    intros Hd. unfold context.WithTimeout, context.WithDeadline. rewrite Hd.
    eexists. split; [reflexivity |].
    Z.to_euclidean_division_equations. lia. }
  split; [exact Hdo |].
  apply every_operation_request. intros cmd _ _. apply Hdo.
Qed.

(** X16.  Every request of every operation carries a deadline, and that
    deadline is never later than the deadline of the context the caller
    gave, nor later than the clock plus the duration [do] computed. *)
Theorem request_deadline_never_later (c : client) (ctx : context.Context) :
  every_operation c ctx (fun A e =>
    every_request e (fun req =>
      exists d' : Z,
        context.Deadline (http.Context req) = Some d'
        /\ d' <= now + time.add (timeout c) (10 * time.Second)
        /\ (forall d : Z, context.Deadline ctx = Some d -> d' <= d))).
Proof.
  apply every_operation_request. intros cmd _ _ req Hin.
  apply do_sent in Hin. destruct Hin as (payload & _ & ->).
  cbn [http.Context].
  unfold request_context, context.WithTimeout, context.WithDeadline.
  destruct (context.Deadline ctx) as [cur |] eqn:Hd.
  - destruct (cur <? now + time.add (timeout c) (10 * time.Second)) eqn:E.
    + apply Z.ltb_lt in E. exists cur. rewrite Hd.
      repeat split; [lia |]. intros d Hd'. injection Hd' as <-. lia.
    + apply Z.ltb_ge in E. eexists. split; [reflexivity |].
      split; [lia |]. intros d Hd'. injection Hd' as <-. exact E.
  - eexists. split; [reflexivity |]. split; [lia | discriminate].
Qed.

(** X17.  A client built with a zero timeout sends [maxTimeout] 60000
    in every request of every operation and, when the caller's context has
    no deadline, bounds the exchange by 70 seconds from the call. *)
Theorem default_timeout_on_the_wire (base : string)
  (h : option http.ClientRef) (ctx : context.Context) :
  every_operation (New base 0 h) ctx (fun A e =>
    every_request e (fun req =>
      has_member "maxTimeout" (Some (json.Number 60000)) req
      /\ (context.Deadline ctx = None ->
          context.Deadline (http.Context req) = Some (now + 70000000000)))).
Proof.
  apply every_operation_request. intros cmd _ _ req Hin.
  apply do_sent in Hin. destruct Hin as (payload & He & ->).
  split.
  - exact (json_Encode_maxTimeout _ _ He).
  - intros Hd. cbn [http.Context].
    unfold request_context, context.WithTimeout, context.WithDeadline.
    rewrite Hd. reflexivity.
Qed.

(** X18.  What [New] builds always has a timeout other than zero and
    an HTTP client that is not nil, and building again from the fields of a
    client [New] built gives that same client. *)
Theorem New_normalizes (base : string) (t : time.Duration)
  (h : option http.ClientRef) :
  timeout (New base t h) <> 0
  /\ httpClient (New base t h) <> None
  /\ New (baseURL (New base t h)) (timeout (New base t h))
       (httpClient (New base t h)) = New base t h.
Proof.
  unfold New. simpl.
  destruct (t =? 0) eqn:E.
  - destruct h; repeat split; discriminate.
  - apply Z.eqb_neq in E.
    destruct h; simpl; rewrite (proj2 (Z.eqb_neq t 0) E);
      repeat split; try discriminate; exact E.
Qed.

End Flaresolverr.

(** ** The classifier under the lower-casing of Go *)

Section Classifier.

(** The lookup in the case tables, for the runes above ASCII. *)
Variable To_LowerCase : Z -> Z.

(** C1, as the code has it.  The classifier reads nothing of a
    [Response] but its message.  Whatever else the message holds, ASCII or
    not, a message that contains "maximum timeout reached" in some mixture
    of upper and lower case is classified to the RequestTimeout error.  A
    message of ASCII bytes that does not is classified to an error that
    wraps the UnexpectedError error.  In general the result is
    RequestTimeout exactly when the message as [strings.ToLower] lowers it
    contains the phrase, and every other result wraps UnexpectedError and
    has for text the text of that error, a colon and the message,
    unchanged. *)
Theorem handleError_classifies (resp : Response) :
  (forall resp' : Response,
     Message resp' = Message resp ->
     handleError (strings.MapToLower To_LowerCase) resp' =
     handleError (strings.MapToLower To_LowerCase) resp)
  /\ (contains_ignoring_case (Message resp) timeout_message ->
      handleError (strings.MapToLower To_LowerCase) resp = errors.ErrRequestTimeout)
  /\ (strings.isASCII (Message resp) = true ->
      ~ contains_ignoring_case (Message resp) timeout_message ->
      handleError (strings.MapToLower To_LowerCase) resp =
      errors.wrapError
        ("unexpected error from FlareSolverr server: " ++ Message resp)
        errors.ErrUnexpectedError)
  /\ (handleError (strings.MapToLower To_LowerCase) resp = errors.ErrRequestTimeout <->
      contains (strings.ToLower (strings.MapToLower To_LowerCase) (Message resp))
        timeout_message)
  /\ (handleError (strings.MapToLower To_LowerCase) resp <> errors.ErrRequestTimeout ->
      handleError (strings.MapToLower To_LowerCase) resp =
        errors.wrapError
          ("unexpected error from FlareSolverr server: " ++ Message resp)
          errors.ErrUnexpectedError
      /\ errors.Error (handleError (strings.MapToLower To_LowerCase) resp) =
           ("unexpected error from FlareSolverr server: " ++ Message resp)%string
      /\ errors.Unwrap (handleError (strings.MapToLower To_LowerCase) resp) =
           Some errors.ErrUnexpectedError
      /\ errors.Is (handleError (strings.MapToLower To_LowerCase) resp)
           errors.ErrUnexpectedError = true
      /\ errors.Is (handleError (strings.MapToLower To_LowerCase) resp)
           errors.ErrRequestTimeout = false).
Proof.
  assert (strings.lowerASCII timeout_message = timeout_message) as Hp by reflexivity.
  assert (strings.isASCII timeout_message = true) as Ha by reflexivity.
  split; [| split; [| split; [| split]]].
  - intros resp' H. unfold handleError. now rewrite H.
  - intros H. apply handleError_timeout. apply Contains_spec.
    now apply ToLower_contains_ignoring_case.
  - intros Hascii Hn. apply handleError_unexpected. apply Contains_false.
    intros Hc. apply Hn.
    apply (contains_ignoring_case_lowerASCII _ _ Hp).
    now rewrite <- (ToLower_ASCII (strings.MapToLower To_LowerCase) _ Hascii).
  - rewrite <- Contains_spec. split.
    + intros H.
      destruct (strings.Contains
                  (strings.ToLower (strings.MapToLower To_LowerCase) (Message resp))
                  timeout_message) eqn:Hc; [reflexivity |].
      rewrite (handleError_unexpected _ resp Hc) in H. discriminate H.
    + apply handleError_timeout.
  - intros Hne.
    destruct (strings.Contains
                (strings.ToLower (strings.MapToLower To_LowerCase) (Message resp))
                timeout_message) eqn:Hc.
    + elim Hne. now apply handleError_timeout.
    + rewrite (handleError_unexpected _ resp Hc). repeat split.
Qed.

End Classifier.

(* ================================================================== *)
(** * Part IV.  The tests of the package, and instances                *)
(* ================================================================== *)

(** [Test_handleSession] *)
Example test_handleSession_valid :
  handleSession test_session = "47d0a203-a007-4a01-b8c1-0cf0156c3cc7"%string.
Proof. reflexivity. Qed.

Example test_handleSession_nil : handleSession uuid.Nil = ""%string.
Proof. reflexivity. Qed.

(** [Test_handleError] *)
Example test_handleError_default :
  errors.Is (handleError test_lower (test_Response "Oops, something went wrong!"))
    errors.ErrUnexpectedError = true.
Proof. reflexivity. Qed.

Example test_handleError_timeout :
  handleError test_lower (test_Response "maximum timeout reached") =
  errors.ErrRequestTimeout.
Proof. reflexivity. Qed.

(** [TestNew] *)
Example test_New_default :
  New "foo.bar" 0 None =
  mkClient "foo.bar" (Some http.DefaultClient) (time.Millisecond * 60000).
Proof. reflexivity. Qed.

Example test_New_given :
  New "foo.bar" 100 (Some http.DefaultClient) =
  mkClient "foo.bar" (Some http.DefaultClient) 100.
Proof. reflexivity. Qed.

(** A [Post] through the small world: the request on the wire, and the
    two outcomes by status code. *)
Example test_Post_wire :
  sent (Post test_lower test_now test_url_Parse_error (test_reply 200 "ok")
          test_Decode (New test_baseURL 0 None) context.Background
          "https://httpbin.org/anything" uuid.Nil "foo=bar" []) =
  [http.mkRequest "POST" test_baseURL
     [("Content-Type", "application/json")%string]
     (json.Object [("cmd", json.Str "request.post");
                   ("url", json.Str "https://httpbin.org/anything");
                   ("maxTimeout", json.Number 60000);
                   ("postData", json.Str "foo=bar")]%string)
     (context.mkContext (Some (test_now + 70000000000)))].
Proof. reflexivity. Qed.

Example test_Post_ok :
  ret (Post test_lower test_now test_url_Parse_error (test_reply 200 "ok")
         test_Decode (New test_baseURL 0 None) context.Background
         "https://httpbin.org/anything" uuid.Nil "foo=bar" []) =
  returns (Some (test_Response "ok"), None).
Proof. reflexivity. Qed.

Example test_Post_timeout :
  ret (Post test_lower test_now test_url_Parse_error
         (test_reply 500 "Error: Maximum timeout reached. maxTimeout=60000 (ms)")
         test_Decode (New test_baseURL 0 None) context.Background
         "https://httpbin.org/anything" uuid.Nil "foo=bar" []) =
  returns (None, Some errors.ErrRequestTimeout).
Proof. reflexivity. Qed.

(** The theorems with hypotheses, at concrete inputs. *)

Lemma handleSession_serializes_witness :
  uuid.wf test_session
  /\ ((handleSession test_session = ""%string <-> test_session = uuid.Nil)
      /\ (test_session <> uuid.Nil ->
          handleSession test_session = uuid.String test_session
          /\ String.length (handleSession test_session) = 36%nat
          /\ is_canonical (handleSession test_session) = true
          /\ parseCanonical (handleSession test_session) = Some test_session)
      /\ handleSession test_session <> uuid.String uuid.Nil).
Proof.
  split; [reflexivity | apply (handleSession_serializes test_session); reflexivity].
Defined.

Lemma handleError_timeout_discards_message_witness :
  contains
    (strings.ToLower test_lower (Message (test_Response "maximum timeout reached")))
    timeout_message
  /\ contains
       (strings.ToLower test_lower
          (Message (test_Response "Error: Maximum timeout reached. maxTimeout=60000 (ms)")))
       timeout_message
  /\ handleError test_lower (test_Response "maximum timeout reached") =
       errors.ErrRequestTimeout
  /\ handleError test_lower
       (test_Response "Error: Maximum timeout reached. maxTimeout=60000 (ms)") =
     handleError test_lower (test_Response "maximum timeout reached").
Proof.
  assert (contains
            (strings.ToLower test_lower (Message (test_Response "maximum timeout reached")))
            timeout_message) as H1 by (apply Contains_spec; reflexivity).
  assert (contains
            (strings.ToLower test_lower
               (Message (test_Response "Error: Maximum timeout reached. maxTimeout=60000 (ms)")))
            timeout_message) as H2 by (apply Contains_spec; reflexivity).
  split; [exact H1 | split; [exact H2 |]].
  destruct (handleError_timeout_discards_message test_lower _ _ H1 H2)
    as (Ha & Hb & _).
  split; [exact Ha | exact Hb].
Defined.

Lemma negative_timeout_preserved_witness :
  -1500000 < 0
  /\ GoInt.is_int64 (-1500000)
  /\ timeout (New test_baseURL (-1500000) None) = -1500000
  /\ wire_timeout (New test_baseURL (-1500000) None) = -1.
Proof.
  assert (-1500000 < 0) as Hneg by reflexivity.
  assert (GoInt.is_int64 (-1500000)) as Hrange by (split; discriminate).
  split; [exact Hneg | split; [exact Hrange |]].
  destruct (negative_timeout_preserved test_lower test_now test_url_Parse_error
              (test_reply 200 "ok") test_Decode
              test_baseURL (-1500000) None context.Background Hneg Hrange)
    as (Ht & _ & Hw & _).
  split; [exact Ht | exact Hw].
Defined.

(** A negative timeout shorter than a millisecond is kept by [New], and
    the [maxTimeout] sent for it is 0, which is not negative. *)
Lemma negative_timeout_wire_not_negative :
  -1 < 0
  /\ timeout (New test_baseURL (-1) None) = -1
  /\ map (fun req => json.get "maxTimeout" (http.Payload req))
       (sent (ListSessions test_lower test_now test_url_Parse_error
                (test_reply 200 "ok") test_Decode
                (New test_baseURL (-1) None) context.Background))
     = [Some (json.Number 0)]
  /\ ~ 0 < 0.
Proof.
  split; [reflexivity | split; [reflexivity | split; [reflexivity |]]].
  intros H. discriminate H.
Qed.

(** The further theorems with hypotheses, at concrete inputs. *)

Lemma session_member_on_the_wire_witness :
  uuid.wf test_session
  /\ every_request
       (DestroySession test_lower test_now test_url_Parse_error
          (test_reply 200 "ok") test_Decode (New test_baseURL 0 None)
          context.Background test_session)
       (has_member "session" (session_member test_session)).
Proof.
  assert (uuid.wf test_session) as Hwf by reflexivity.
  split; [exact Hwf |].
  exact (proj1 (proj2 (session_member_on_the_wire test_lower test_now
                         test_url_Parse_error (test_reply 200 "ok") test_Decode
                         (New test_baseURL 0 None) context.Background
                         test_session Hwf))).
Defined.

Lemma do_transport_failure_witness :
  sent (snd (do test_lower test_now test_url_Parse_error test_refuse test_Decode
               (New test_baseURL 0 None) context.Background
               (mkCommand CommandSessionslist "" "" 0 [] false "" "")))
  = [test_list_request]
  /\ httpClient (New test_baseURL 0 None) = Some http.DefaultClient
  /\ test_refuse http.DefaultClient test_list_request =
     inr (errors.foreign "context deadline exceeded")
  /\ exists err : errors.error,
       ret (snd (do test_lower test_now test_url_Parse_error test_refuse test_Decode
                   (New test_baseURL 0 None) context.Background
                   (mkCommand CommandSessionslist "" "" 0 [] false "" "")))
       = returns (None, Some err)
       /\ errors.Is err errors.ErrRequestTimeout = false.
Proof.
  split; [reflexivity | split; [reflexivity | split; [reflexivity |]]].
  destruct (do_transport_failure test_lower test_now test_url_Parse_error
              test_refuse test_Decode (New test_baseURL 0 None)
              context.Background
              (mkCommand CommandSessionslist "" "" 0 [] false "" "")
              http.DefaultClient test_list_request
              (errors.foreign "context deadline exceeded")
              eq_refl eq_refl eq_refl)
    as (err & Hr & _ & _ & Ht & _).
  exists err. split; [exact Hr | exact Ht].
Defined.

Lemma do_unparsable_base_URL_witness :
  test_bad_url (baseURL (New "127.0.0.1:8191" 0 None)) =
  Some (errors.foreign "parse: missing protocol scheme")
  /\ sent (ListSessions test_lower test_now test_bad_url (test_reply 200 "ok")
             test_Decode (New "127.0.0.1:8191" 0 None) context.Background) = [].
Proof.
  split; [reflexivity |].
  destruct (do_unparsable_base_URL test_lower test_now test_bad_url
              (test_reply 200 "ok") test_Decode (New "127.0.0.1:8191" 0 None)
              context.Background
              (errors.foreign "parse: missing protocol scheme") eq_refl)
    as (_ & _ & Hlist & _).
  exact (proj1 Hlist).
Defined.

Lemma DestroySession_by_status_witness :
  sent (DestroySession test_lower test_now test_url_Parse_error
          (test_reply 200 "ok") test_Decode (New test_baseURL 0 None)
          context.Background test_session) = [test_destroy_request]
  /\ httpClient (New test_baseURL 0 None) = Some http.DefaultClient
  /\ test_reply 200 "ok" http.DefaultClient test_destroy_request =
     inl (http.mkResponse 200 "ok")
  /\ test_Decode (http.Body (http.mkResponse 200 "ok")) = inl (test_Response "ok")
  /\ ret (DestroySession test_lower test_now test_url_Parse_error
            (test_reply 200 "ok") test_Decode (New test_baseURL 0 None)
            context.Background test_session) = returns None.
Proof.
  repeat (split; [reflexivity |]).
  exact (DestroySession_by_status test_lower test_now test_url_Parse_error
           (test_reply 200 "ok") test_Decode (New test_baseURL 0 None)
           context.Background test_session http.DefaultClient
           test_destroy_request (http.mkResponse 200 "ok") (test_Response "ok")
           eq_refl eq_refl eq_refl eq_refl).
Defined.

Lemma handleError_keeps_messages_apart_witness :
  handleError test_lower (test_Response "Oops, something went wrong!") =
  handleError test_lower
    (mkResponse "error" "Oops, something went wrong!" 1 2 "v3" "" [] None)
  /\ handleError test_lower (test_Response "Oops, something went wrong!") <>
     errors.ErrRequestTimeout
  /\ Message (test_Response "Oops, something went wrong!") =
     Message (mkResponse "error" "Oops, something went wrong!" 1 2 "v3" "" [] None).
Proof.
  assert (handleError test_lower (test_Response "Oops, something went wrong!") =
          handleError test_lower
            (mkResponse "error" "Oops, something went wrong!" 1 2 "v3" "" [] None))
    as H1 by reflexivity.
  assert (handleError test_lower (test_Response "Oops, something went wrong!") <>
          errors.ErrRequestTimeout) as H2 by discriminate.
  split; [exact H1 | split; [exact H2 |]].
  exact (handleError_keeps_messages_apart test_lower _ _ H1 H2).
Defined.

Lemma handleError_ascii_case_blind_witness :
  strings.isASCII (Message (test_Response "MAXIMUM TIMEOUT REACHED")) = true
  /\ strings.isASCII (Message (test_Response "maximum timeout reached")) = true
  /\ strings.lowerASCII (Message (test_Response "MAXIMUM TIMEOUT REACHED")) =
     strings.lowerASCII (Message (test_Response "maximum timeout reached"))
  /\ (handleError test_lower (test_Response "MAXIMUM TIMEOUT REACHED") =
      errors.ErrRequestTimeout <->
      handleError test_lower (test_Response "maximum timeout reached") =
      errors.ErrRequestTimeout).
Proof.
  split; [reflexivity | split; [reflexivity | split; [reflexivity |]]].
  exact (handleError_ascii_case_blind test_lower
           (test_Response "MAXIMUM TIMEOUT REACHED")
           (test_Response "maximum timeout reached") eq_refl eq_refl eq_refl).
Defined.

Lemma handleSession_injective_witness :
  uuid.wf test_session
  /\ uuid.wf (rev (rev test_session))
  /\ handleSession test_session = handleSession (rev (rev test_session))
  /\ test_session = rev (rev test_session).
Proof.
  repeat (split; [reflexivity |]).
  exact (handleSession_injective test_session (rev (rev test_session))
           eq_refl eq_refl eq_refl).
Defined.

Lemma wire_timeout_within_deadline_witness :
  0 <= timeout (New test_baseURL 1500000 None)
  /\ GoInt.is_int64 (timeout (New test_baseURL 1500000 None) + 10000000000)
  /\ every_operation test_lower test_now test_url_Parse_error
       (test_reply 200 "ok") test_Decode (New test_baseURL 1500000 None)
       context.Background
       (fun A e =>
          every_request e
            (truncated_within_deadline test_now (New test_baseURL 1500000 None)
               context.Background)).
Proof.
  assert (0 <= timeout (New test_baseURL 1500000 None)) as H1 by discriminate.
  assert (GoInt.is_int64 (timeout (New test_baseURL 1500000 None) + 10000000000))
    as H2 by (split; discriminate).
  split; [exact H1 | split; [exact H2 |]].
  exact (proj2 (wire_timeout_within_deadline test_lower test_now
                  test_url_Parse_error (test_reply 200 "ok") test_Decode
                  (New test_baseURL 1500000 None) context.Background H1 H2)).
Defined.

Lemma nil_client_panics_witness :
  test_url_Parse_error test_baseURL = None
  /\ ret (ListSessions test_lower test_now test_url_Parse_error
            (test_reply 200 "ok") test_Decode
            (mkClient test_baseURL None 60000000000) context.Background) = panics.
Proof.
  split; [reflexivity |].
  destruct (nil_client_panics test_lower test_now test_url_Parse_error
              (test_reply 200 "ok") test_Decode test_baseURL 60000000000
              context.Background eq_refl) as (_ & Hlist & _).
  exact (proj1 Hlist).
Defined.


Lemma handleError_classifies_witness :
  strings.isASCII mixed_message = false
  /\ contains_ignoring_case mixed_message timeout_message
  /\ handleError (strings.MapToLower row_of_U0130) (test_Response mixed_message) =
     errors.ErrRequestTimeout.
Proof.
  assert (contains_ignoring_case mixed_message timeout_message) as Hc.
  { exists ("Erreur (" ++ utf8.EncodeRune 233 ++ "chec): ")%string,
      "Maximum Timeout REACHED"%string, "."%string.
    split; reflexivity. }
  split; [reflexivity | split; [exact Hc |]].
  exact (proj1 (proj2 (handleError_classifies row_of_U0130
                         (test_Response mixed_message))) Hc).
Defined.

Lemma Post_body_verbatim_witness :
  utf8.ValidString accented_body = true
  /\ strings.isASCII accented_body = false
  /\ every_request
       (Post test_lower test_now test_url_Parse_error (test_reply 200 "ok")
          test_Decode (New test_baseURL 0 None) context.Background
          "https://httpbin.org/anything" uuid.Nil accented_body [])
       (fun req =>
          json.get "postData" (http.Payload req) =
          if String.eqb accented_body "" then None
          else Some (json.Str accented_body)).
Proof.
  split; [reflexivity | split; [reflexivity |]].
  exact (proj1 (proj2 (proj2 (Post_body_verbatim test_lower test_now
                                test_url_Parse_error (test_reply 200 "ok")
                                test_Decode (New test_baseURL 0 None)
                                context.Background
                                "https://httpbin.org/anything" uuid.Nil
                                accented_body []))) eq_refl).
Defined.

(** ** Where the code departs from the sentences of the specification *)

(** A message that holds U+0130 where the phrase has the letter i does
    not contain the phrase in any mixture of cases, and yet is classified
    to RequestTimeout, not to UnexpectedError: [strings.ToLower] lowers
    U+0130 to i. *)
Lemma handleError_dotted_capital_I :
  ~ contains_ignoring_case dotted_message timeout_message
  /\ handleError (strings.MapToLower row_of_U0130) (test_Response dotted_message) =
     errors.ErrRequestTimeout
  /\ errors.Is
       (handleError (strings.MapToLower row_of_U0130) (test_Response dotted_message))
       errors.ErrUnexpectedError = false.
Proof.
  split; [| split; reflexivity].
  intros H.
  apply (contains_ignoring_case_lowerASCII dotted_message timeout_message eq_refl) in H.
  apply Contains_spec in H. discriminate H.
Qed.

(** A body with a byte that is not UTF-8 does not reach the wire
    unchanged: the member [postData] has U+FFFD in its place. *)
Lemma postData_invalid_byte_replaced :
  map (fun req => json.get "postData" (http.Payload req))
    (sent (Post test_lower test_now test_url_Parse_error (test_reply 200 "ok")
             test_Decode (New test_baseURL 0 None) context.Background
             "https://httpbin.org/anything" uuid.Nil invalid_body []))
  = [Some (json.Str ("foo=" ++ utf8.EncodeRune utf8.RuneError))]
  /\ ("foo=" ++ utf8.EncodeRune utf8.RuneError)%string <> invalid_body.
Proof.
  split; [reflexivity | discriminate].
Qed.

